(** * Simple notes app: the page's gateway and view-model

    A shallow embedding of [notes_frontend/src/routes/+page.svelte]: the
    [api] request wrapper and the state transitions [loadNotes],
    [startCreate], [startEdit], [save] and [deleteNote].

    Conventions of the embedding.
    - A JavaScript string is the list of its UTF-16 code units.
    - The component's [let] variables form the record [State]; every
      handler is a function on it.
    - An [async] handler is split at its single [await api(...)]: a
      synchronous prefix ([*_begin]) that may issue a request, and a
      continuation ([*_settle]) run on the outcome of the call.  The
      handler run without another task in between is their composition.
    - [new Date(s).getTime()] is a parameter [getTime]: its value on
      strings outside the ECMAScript date-time format is left to the
      engine.  [None] stands for NaN. *)

From Stdlib Require Import List ZArith NArith Bool Ascii String Lia.
From Stdlib Require Import Sorted Permutation.
From Stdlib Require DecimalString.
Import ListNotations.

Set Implicit Arguments.

(** ** JavaScript strings *)

Module Js.

Definition jsstring := list N.

Definition lit (s : string) : jsstring :=
  map N_of_ascii (list_ascii_of_string s).

Fixpoint str_eqb (a b : jsstring) : bool :=
  match a, b with
  | [], [] => true
  | x :: a', y :: b' => N.eqb x y && str_eqb a' b'
  | _, _ => false
  end.

(** Truthiness of a string: every string but the empty one. *)
Definition truthy (s : jsstring) : bool :=
  match s with [] => false | _ :: _ => true end.

(** [a || b] on strings. *)
Definition or_else (a b : jsstring) : jsstring :=
  if truthy a then a else b.

(** WhiteSpace and LineTerminator code units, the ones [trim] strips. *)
Definition is_space (c : N) : bool :=
  ((9 <=? c) && (c <=? 13)
   || (c =? 32) || (c =? 160) || (c =? 5760)
   || ((8192 <=? c) && (c <=? 8202))
   || (c =? 8232) || (c =? 8233) || (c =? 8239) || (c =? 8287)
   || (c =? 12288) || (c =? 65279))%N.

Fixpoint trimStart (s : jsstring) : jsstring :=
  match s with
  | c :: s' => if is_space c then trimStart s' else s
  | [] => []
  end.

Definition trimEnd (s : jsstring) : jsstring :=
  rev (trimStart (rev s)).

Definition trim (s : jsstring) : jsstring :=
  trimEnd (trimStart s).

(** Decimal rendering of a non-negative integer, as a template literal
    prints it. *)
Definition of_N (n : N) : jsstring :=
  lit (DecimalString.NilZero.string_of_uint (N.to_uint n)).

End Js.

Import Js.

(** ** Data model *)

Record Note := mkNote {
  id : jsstring;
  title : jsstring;
  content : jsstring;
  createdAt : jsstring;
  updatedAt : jsstring
}.

(** What a [catch (e)] clause can receive: an [Error] instance with its
    [message], or any other value. *)
Inductive Thrown :=
| ErrorInstance (message : jsstring)
| OtherValue.

(** [e instanceof Error ? e.message : fallback] *)
Definition message_or (e : Thrown) (fallback : jsstring) : jsstring :=
  match e with
  | ErrorInstance m => m
  | OtherValue => fallback
  end.

(** ** Remote notes gateway *)

Module Gateway.

Inductive Method := GET | POST | PUT | DELETE.

(** The arguments of one [api(path, init)] call.  The body is the object
    handed to [JSON.stringify], [{ title, content }].  Every call sends the
    JSON content type: no call site passes [headers]. *)
Record Request := mkRequest {
  method : Method;
  path : jsstring;
  body : option (jsstring * jsstring)
}.

(** The [Response] object as [api] observes it: [status], the outcome of
    [res.text()] ([None] when that promise rejects) and the outcome of
    [res.json()]. *)
Record Response (T : Type) := mkResponse {
  status : N;
  text : option jsstring;
  json : Thrown + T
}.

(** [res.ok] *)
Definition ok {T} (res : Response T) : bool :=
  ((200 <=? status res) && (status res <=? 299))%N.

(** What [fetch] settles to. *)
Inductive Reply (T : Type) :=
| Rejected (e : Thrown)
| Resolved (res : Response T).

Arguments Rejected {T} e.

(** The message of the error thrown on a non-success status. *)
Definition failure_message {T} (res : Response T) : jsstring :=
  let text := match text res with Some t => t | None => [] end in
  or_else text (lit "Request failed: " ++ of_N (status res)).

(** [api]: [inl] is a rejection; [inr None] is [undefined], returned on
    status 204; [inr (Some v)] is the decoded body. *)
Definition api {T} (reply : Reply T) : Thrown + option T :=
  match reply with
  | Rejected e => inl e
  | Resolved res =>
      if negb (ok res) then inl (ErrorInstance (failure_message res))
      else if (status res =? 204)%N then inr None
      else match json res with
           | inl e => inl e
           | inr v => inr (Some v)
           end
  end.

(** One settled call: the request and what [api] made of its reply. *)
Definition Call (T : Type) : Type := (Request * (Thrown + option T))%type.

(** [api<T>] is declared to resolve to a [T].  For [T = Note] and
    [T = Note[]] the value [undefined] is not one: such a reply leaves the
    declared types, and the view-model below is not followed past it. *)
Definition typed {T} (r : Thrown + option T) : option (Thrown + T) :=
  match r with
  | inl e => Some (inl e)
  | inr (Some v) => Some (inr v)
  | inr None => None
  end.

End Gateway.

Import Gateway.

(** ** Editor/list view-model *)

Record State := mkState {
  notes : list Note;
  loading : bool;
  saving : bool;
  deletingId : option jsstring;
  selectedId : option jsstring;
  formTitle : jsstring;
  formContent : jsstring;
  errorMessage : option jsstring
}.

(** The component's initial bindings. *)
Definition initial : State :=
  mkState [] true false None None [] [] None.

Definition set_notes (v : list Note) (st : State) : State :=
  mkState v (loading st) (saving st) (deletingId st) (selectedId st)
          (formTitle st) (formContent st) (errorMessage st).

Definition set_loading (v : bool) (st : State) : State :=
  mkState (notes st) v (saving st) (deletingId st) (selectedId st)
          (formTitle st) (formContent st) (errorMessage st).

Definition set_saving (v : bool) (st : State) : State :=
  mkState (notes st) (loading st) v (deletingId st) (selectedId st)
          (formTitle st) (formContent st) (errorMessage st).

Definition set_deletingId (v : option jsstring) (st : State) : State :=
  mkState (notes st) (loading st) (saving st) v (selectedId st)
          (formTitle st) (formContent st) (errorMessage st).

Definition set_selectedId (v : option jsstring) (st : State) : State :=
  mkState (notes st) (loading st) (saving st) (deletingId st) v
          (formTitle st) (formContent st) (errorMessage st).

Definition set_formTitle (v : jsstring) (st : State) : State :=
  mkState (notes st) (loading st) (saving st) (deletingId st) (selectedId st)
          v (formContent st) (errorMessage st).

Definition set_formContent (v : jsstring) (st : State) : State :=
  mkState (notes st) (loading st) (saving st) (deletingId st) (selectedId st)
          (formTitle st) v (errorMessage st).

Definition set_errorMessage (v : option jsstring) (st : State) : State :=
  mkState (notes st) (loading st) (saving st) (deletingId st) (selectedId st)
          (formTitle st) (formContent st) v.

(** Statements of a handler, written in source order: [st |> f |> g]. *)
Notation "st |> f" := (f st) (at level 45, left associativity, only parsing).

(** Truthiness of [selectedId : string | null]. *)
Definition selected_truthy (s : option jsstring) : option jsstring :=
  match s with
  | Some i => if truthy i then Some i else None
  | None => None
  end.

(** [selectedId === id] *)
Definition selected_is (s : option jsstring) (i : jsstring) : bool :=
  match s with
  | Some j => str_eqb j i
  | None => false
  end.

Definition startCreate (st : State) : State :=
  st |> set_selectedId None
     |> set_formTitle []
     |> set_formContent []
     |> set_errorMessage None.

Definition startEdit (note : Note) (st : State) : State :=
  st |> set_selectedId (Some (id note))
     |> set_formTitle (title note)
     |> set_formContent (content note)
     |> set_errorMessage None.

(** *** loadNotes *)

Definition loadNotes_begin (st : State) : State * Request :=
  (st |> set_loading true |> set_errorMessage None,
   mkRequest GET (lit "/notes") None).

Definition loadNotes_settle (r : Thrown + list Note) (st : State) : State :=
  match r with
  | inr l => st |> set_notes l
  | inl e => st |> set_errorMessage (Some (message_or e (lit "Failed to load notes")))
  end |> set_loading false.

(** The handler run to completion; the trace lists the calls it made. *)
Definition loadNotes (st : State) (net : Request -> Reply (list Note))
  : option (State * list (Call (list Note))) :=
  let (st1, req) := loadNotes_begin st in
  let res := api (net req) in
  match typed res with
  | Some r => Some (loadNotes_settle r st1, [(req, res)])
  | None => None
  end.

(** *** deleteNote *)

Definition deleteNote_begin (i : jsstring) (st : State) : State * Request :=
  (st |> set_errorMessage None |> set_deletingId (Some i),
   mkRequest DELETE (lit "/notes/" ++ i) None).

Definition deleteNote_settle {T} (i : jsstring) (r : Thrown + option T)
    (st : State) : State :=
  match r with
  | inr _ =>
      let st1 := st |> set_notes (filter (fun n => negb (str_eqb (id n) i)) (notes st)) in
      if selected_is (selectedId st1) i then startCreate st1 else st1
  | inl e => st |> set_errorMessage (Some (message_or e (lit "Failed to delete note")))
  end |> set_deletingId None.

Definition deleteNote {T} (i : jsstring) (st : State) (net : Request -> Reply T)
  : State * list (Call T) :=
  let (st1, req) := deleteNote_begin i st in
  let res := api (net req) in
  (deleteNote_settle i res st1, [(req, res)]).

(** *** save *)

Section Save.

(** [new Date(s).getTime()], [None] for NaN. *)
Variable getTime : jsstring -> option Z.

(** The comparator handed to [sort],
    [(a, b) => new Date(b.updatedAt).getTime() - new Date(a.updatedAt).getTime()];
    [None] is NaN. *)
Definition compareFn (a b : Note) : option Z :=
  match getTime (updatedAt b), getTime (updatedAt a) with
  | Some tb, Some ta => Some (tb - ta)%Z
  | _, _ => None
  end.

(** SortCompare of [Array.prototype.sort]: a NaN from the comparator
    counts as +0. *)
Definition SortCompare (a b : Note) : Z :=
  match compareFn a b with
  | Some v => v
  | None => 0%Z
  end.

(** [Array.prototype.sort] is stable: an element stays before the later
    elements it does not compare greater than.  On notes whose dates can
    be read the comparator is a consistent one, and the outcome is then
    the same for every engine: the one stable arrangement, newest first
    ([sort_determined] below).  Insertion from the right computes it.

    Where an [updatedAt] cannot be read the comparator gives NaN, it is no
    longer consistent, and the language leaves the order to the engine:
    all that is sure is that the result holds the same notes.  The order
    of [sort] is then only one of the possible ones.  The properties of
    the page below state an order for dated notes only; what they state
    without that holds of every rearrangement of the same notes. *)
Fixpoint sort_insert (x : Note) (l : list Note) : list Note :=
  match l with
  | [] => [x]
  | y :: l' =>
      if (SortCompare x y <=? 0)%Z then x :: l
      else y :: sort_insert x l'
  end.

Fixpoint sort (l : list Note) : list Note :=
  match l with
  | [] => []
  | x :: l' => sort_insert x (sort l')
  end.

Inductive Branch := UpdateBranch | CreateBranch.

Definition save_begin (st : State) : State * option (Branch * Request) :=
  let st := st |> set_errorMessage None in
  let title := trim (formTitle st) in
  let content := formContent st in
  if negb (truthy title) then
    (st |> set_errorMessage (Some (lit "Title is required.")), None)
  else
    let st := st |> set_saving true in
    match selected_truthy (selectedId st) with
    | Some sel =>
        (st, Some (UpdateBranch,
                   mkRequest PUT (lit "/notes/" ++ sel) (Some (title, content))))
    | None =>
        (st, Some (CreateBranch,
                   mkRequest POST (lit "/notes") (Some (title, content))))
    end.

Definition save_settle (b : Branch) (r : Thrown + Note) (st : State) : State :=
  match r with
  | inr note =>
      match b with
      | UpdateBranch =>
          st |> set_notes (map (fun n => if str_eqb (id n) (id note) then note else n)
                               (notes st))
      | CreateBranch =>
          st |> set_notes (note :: notes st)
             |> set_selectedId (Some (id note))
      end |> (fun st => set_notes (sort (notes st)) st)
  | inl e => st |> set_errorMessage (Some (message_or e (lit "Failed to save note")))
  end |> set_saving false.

Definition save (st : State) (net : Request -> Reply Note)
  : option (State * list (Call Note)) :=
  match save_begin st with
  | (st1, None) => Some (st1, [])
  | (st1, Some (b, req)) =>
      let res := api (net req) in
      match typed res with
      | Some r => Some (save_settle b r st1, [(req, res)])
      | None => None
      end
  end.

(** Sorted by [updatedAt], newest first: the time of each entry is a
    number and is at least the time of every entry after it. *)
Definition not_older (a b : Note) : bool :=
  match getTime (updatedAt a), getTime (updatedAt b) with
  | Some ta, Some tb => (tb <=? ta)%Z
  | _, _ => false
  end.

Fixpoint sorted_desc (l : list Note) : bool :=
  match l with
  | [] => true
  | x :: l' => forallb (not_older x) l' && sorted_desc l'
  end.

(** The notes whose [updatedAt] is the instant [t]. *)
Definition at_time (t : Z) (n : Note) : bool :=
  match getTime (updatedAt n) with
  | Some t' => (t' =? t)%Z
  | None => false
  end.

(** The [updatedAt] of the note is a date the engine can read. *)
Definition dated (n : Note) : bool :=
  match getTime (updatedAt n) with
  | Some _ => true
  | None => false
  end.

End Save.

(** ** A reader of ISO-8601 instants

    [YYYY-MM-DDTHH:mm:ss.sssZ], the form [Date.prototype.toISOString]
    writes and every engine reads alike; the result is in milliseconds
    since the epoch.  It instantiates [getTime] in the examples, which use
    no other form. *)

Module Iso.

Definition digit (c : N) : option Z :=
  if ((48 <=? c) && (c <=? 57))%N then Some (Z.of_N c - 48)%Z else None.

Fixpoint number (acc : Z) (s : jsstring) : option Z :=
  match s with
  | [] => Some acc
  | c :: s' =>
      match digit c with
      | Some d => number (10 * acc + d)%Z s'
      | None => None
      end
  end.

Definition field (s : jsstring) (from len : nat) : option Z :=
  number 0 (firstn len (skipn from s)).

Definition mark (s : jsstring) (at_ : nat) (c : N) : bool :=
  match nth_error s at_ with
  | Some c' => (c' =? c)%N
  | None => false
  end.

Definition leap (y : Z) : bool :=
  ((y mod 4 =? 0) && (negb (y mod 100 =? 0) || (y mod 400 =? 0)))%Z.

Definition days_in_month (y m : Z) : Z :=
  if (m =? 2)%Z then (if leap y then 29 else 28)%Z
  else if ((m =? 4) || (m =? 6) || (m =? 9) || (m =? 11))%Z then 30%Z
  else 31%Z.

(** Days from 1970-01-01 to the given civil date. *)
Definition days_from_civil (y m d : Z) : Z :=
  let y' := (if m <=? 2 then y - 1 else y)%Z in
  let era := (y' / 400)%Z in
  let yoe := (y' - era * 400)%Z in
  let doy := ((153 * (if m >? 2 then m - 3 else m + 9) + 2) / 5 + d - 1)%Z in
  let doe := (yoe * 365 + yoe / 4 - yoe / 100 + doy)%Z in
  (era * 146097 + doe - 719468)%Z.

Definition getTime (s : jsstring) : option Z :=
  if negb ((List.length s =? 24)%nat
           && mark s 4 45 && mark s 7 45 && mark s 10 84
           && mark s 13 58 && mark s 16 58 && mark s 19 46 && mark s 23 90)
  then None
  else
    match field s 0 4, field s 5 2, field s 8 2,
          field s 11 2, field s 14 2, field s 17 2, field s 20 3 with
    | Some y, Some mo, Some d, Some h, Some mi, Some sec, Some ms =>
        if ((1 <=? mo) && (mo <=? 12) && (1 <=? d) && (d <=? days_in_month y mo)
            && (h <=? 23) && (mi <=? 59) && (sec <=? 59))%Z
        then Some ((((days_from_civil y mo d * 24 + h) * 60 + mi) * 60 + sec) * 1000 + ms)%Z
        else None
    | _, _, _, _, _, _, _ => None
    end.

End Iso.

(** ** Sample data

    Three notes, oldest first, and the replies a server can give. *)

Module Sample.

Definition T1 := lit "2024-01-01T09:00:00.000Z".
Definition T2 := lit "2024-01-02T09:00:00.000Z".
Definition T3 := lit "2024-01-03T09:00:00.000Z".

Definition note1 := mkNote (lit "1") (lit "Title A") (lit "body") T1 T1.
Definition note2 := mkNote (lit "2") (lit "Title B") (lit "more") T2 T2.
Definition note3 := mkNote (lit "3") (lit "Title C") (lit "last") T3 T3.

(** Note 1 as an update returns it: new title and content, [updatedAt]
    refreshed. *)
Definition note1' := mkNote (lit "1") (lit "New") (lit "body2") T1 T3.

(** A note whose identifier no entry of the samples carries. *)
Definition stray := mkNote (lit "9") (lit "Other") (lit "") T2 T2.

(** Status 200 with a JSON body that decodes to [v]. *)
Definition replies {T} (v : T) : Request -> Reply T :=
  fun _ => Resolved (mkResponse 200 None (inr v)).

(** Status 204: there is no body, so [res.json()] would reject. *)
Definition no_content {T} : Request -> Reply T :=
  fun _ => Resolved (mkResponse 204 (Some [])
             (inl (ErrorInstance (lit "Unexpected end of JSON input")))).

(** A non-success status with the given body text. *)
Definition refuses {T} (code : N) (txt : jsstring) : Request -> Reply T :=
  fun _ => Resolved (mkResponse code (Some txt)
             (inl (ErrorInstance (lit "Unexpected end of JSON input")))).

(** [fetch] itself rejects. *)
Definition offline {T} : Request -> Reply T :=
  fun _ => Rejected (ErrorInstance (lit "Failed to fetch")).

(** The page after a load that returned the three notes oldest first. *)
Definition loaded : State :=
  mkState [note1; note2; note3] false false None None [] [] None.

(** The same page once note 1 is opened and its draft changed: the list
    is still oldest first. *)
Definition loaded' : State :=
  mkState [note1; note2; note3] false false None (Some (lit "1"))
          (lit " New ") (lit "body2") None.

(** The page while note 1 is edited, the list newest first. *)
Definition editing : State :=
  mkState [note2; note1] false false None (Some (lit "1"))
          (lit " New ") (lit "body2") None.

(** The page with a new note typed in, nothing selected. *)
Definition drafting : State :=
  mkState [note2; note1] false false None None
          (lit "Title C") (lit "last") None.

(** The same with a blank title. *)
Definition blank : State :=
  mkState [note2; note1] false false None (Some (lit "1"))
          (lit "  " ++ [160%N]) (lit "body2") (Some (lit "stale")).

End Sample.

(** ** Base URL *)

Module Page.

(** [s.replace(/\/$/, '')]: without the [m] flag [$] is the end of the
    string, so the one match there can be is the last code unit. *)
Definition strip_trailing_slash (s : jsstring) : jsstring :=
  match rev s with
  | c :: r => if (c =? 47)%N then rev r else s
  | [] => s
  end.

(** [API_BASE], from [PUBLIC_API_BASE_URL] as the environment gives it:
    [None] when [env] or the variable is missing. *)
Definition API_BASE (env : option jsstring) : jsstring :=
  match env with
  | Some v => strip_trailing_slash v
  | None => lit "http://localhost:3001"
  end.

(** The address [api] fetches, [`${API_BASE}${path}`]. *)
Definition url (env : option jsstring) (req : Request) : jsstring :=
  API_BASE env ++ path req.

End Page.

Example iso_epoch : Iso.getTime (lit "1970-01-01T00:00:00.000Z") = Some 0%Z.
Proof. reflexivity. Qed.

Example iso_2024 : Iso.getTime (lit "2024-03-01T12:30:15.250Z") = Some 1709296215250%Z.
Proof. reflexivity. Qed.

Example iso_not_a_date : Iso.getTime (lit "yesterday") = None.
Proof. reflexivity. Qed.

(** ** Strings *)

Lemma str_eqb_eq (a b : jsstring) : str_eqb a b = true <-> a = b.
Proof.
  revert b; induction a as [|x a IH]; intros [|y b]; simpl;
    try (split; congruence).
  rewrite andb_true_iff, N.eqb_eq, IH.
  split; [intros [-> ->]; reflexivity | intros [= -> ->]; auto].
Qed.

Lemma str_eqb_refl (a : jsstring) : str_eqb a a = true.
Proof. now apply str_eqb_eq. Qed.

Lemma str_eqb_neq (a b : jsstring) : str_eqb a b = false <-> a <> b.
Proof.
  rewrite <- str_eqb_eq. destruct (str_eqb a b); split; congruence.
Qed.

Lemma trimStart_blank (s : jsstring) :
  trimStart s = [] <-> forallb is_space s = true.
Proof.
  induction s as [|c s IH]; simpl; [tauto|].
  destruct (is_space c); simpl; [exact IH | split; discriminate].
Qed.

Lemma trimStart_of_blank (s : jsstring) :
  forallb is_space s = true -> trimStart s = [].
Proof. apply trimStart_blank. Qed.

Lemma forallb_rev {A} (f : A -> bool) (l : list A) :
  forallb f (rev l) = forallb f l.
Proof.
  induction l as [|x l IH]; simpl; [reflexivity|].
  rewrite forallb_app, IH; simpl. rewrite andb_true_r. apply andb_comm.
Qed.

(** [trim] leaves nothing exactly when the string is empty or made of
    white space only. *)
Lemma trim_blank (s : jsstring) :
  trim s = [] <-> forallb is_space s = true.
Proof.
  unfold trim, trimEnd. split.
  - intros H. apply trimStart_blank.
    destruct (trimStart s) as [|c t] eqn:E; [reflexivity|].
    assert (Hc : is_space c = false).
    { destruct s as [|d s']; simpl in E; [discriminate|].
      clear H. revert d E. induction s' as [|e s' IH]; intros d E; simpl in E.
      - destruct (is_space d) eqn:D; [discriminate | now injection E as -> _].
      - destruct (is_space d) eqn:D; [| now injection E as -> _].
        simpl in E. now apply (IH e). }
    apply (f_equal (@rev N)) in H. rewrite rev_involutive in H.
    change (rev (@nil N)) with (@nil N) in H.
    apply trimStart_blank in H. rewrite forallb_rev in H. simpl in H.
    rewrite Hc in H. discriminate.
  - intros H. apply trimStart_blank in H. rewrite H. reflexivity.
Qed.

Example trim_padded :
  trim (lit "  Groceries " ++ [160; 8232]%N) = lit "Groceries".
Proof. reflexivity. Qed.

Example trim_keeps_inner : trim (lit " a b ") = lit "a b".
Proof. reflexivity. Qed.

(** ** The sort *)

Section SortFacts.

Variable getTime : jsstring -> option Z.

Lemma sort_insert_perm (x : Note) (l : list Note) :
  Permutation (x :: l) (sort_insert getTime x l).
Proof.
  induction l as [|y l IH]; simpl; [reflexivity|].
  destruct (SortCompare getTime x y <=? 0)%Z; [reflexivity|].
  rewrite perm_swap. now apply perm_skip.
Qed.

Lemma sort_perm (l : list Note) : Permutation l (sort getTime l).
Proof.
  induction l as [|x l IH]; simpl; [constructor|].
  rewrite <- sort_insert_perm. now apply perm_skip.
Qed.

Lemma sort_length (l : list Note) : List.length (sort getTime l) = List.length l.
Proof. symmetry. apply Permutation_length, sort_perm. Qed.

Lemma sort_In (n : Note) (l : list Note) : In n (sort getTime l) <-> In n l.
Proof.
  split; apply Permutation_in; [symmetry|]; apply sort_perm.
Qed.

Lemma forallb_perm {A} (f : A -> bool) (l l' : list A) :
  Permutation l l' -> forallb f l = true -> forallb f l' = true.
Proof.
  intros P H. rewrite forallb_forall in *. intros x Hx.
  apply H. eapply Permutation_in; [symmetry; exact P | exact Hx].
Qed.

(** On dated notes the comparator is an order: it is not positive exactly
    when the first note is not older than the second. *)
Lemma SortCompare_dated (x y : Note) :
  dated getTime x = true -> dated getTime y = true ->
  (SortCompare getTime x y <=? 0)%Z = not_older getTime x y.
Proof.
  unfold dated, SortCompare, compareFn, not_older.
  destruct (getTime (updatedAt x)) as [tx|], (getTime (updatedAt y)) as [ty|];
    try discriminate.
  intros _ _. apply eq_true_iff_eq. rewrite !Z.leb_le. lia.
Qed.

Lemma not_older_total (x y : Note) :
  dated getTime x = true -> dated getTime y = true ->
  not_older getTime x y = false -> not_older getTime y x = true.
Proof.
  unfold dated, not_older.
  destruct (getTime (updatedAt x)) as [tx|], (getTime (updatedAt y)) as [ty|];
    try discriminate.
  intros _ _. rewrite Z.leb_gt, Z.leb_le. lia.
Qed.

Lemma not_older_trans (x y z : Note) :
  not_older getTime x y = true -> not_older getTime y z = true -> not_older getTime x z = true.
Proof.
  unfold not_older.
  destruct (getTime (updatedAt x)) as [tx|], (getTime (updatedAt y)) as [ty|],
           (getTime (updatedAt z)) as [tz|]; try discriminate.
  rewrite !Z.leb_le. lia.
Qed.

Lemma not_older_dated (x y : Note) :
  not_older getTime x y = true -> dated getTime x = true /\ dated getTime y = true.
Proof.
  unfold not_older, dated.
  destruct (getTime (updatedAt x)), (getTime (updatedAt y)); try discriminate.
  auto.
Qed.

Lemma sort_insert_sorted (x : Note) (l : list Note) :
  dated getTime x = true -> forallb (dated getTime) l = true ->
  sorted_desc getTime l = true -> sorted_desc getTime (sort_insert getTime x l) = true.
Proof.
  intros Dx. induction l as [|y l IH]; simpl; [reflexivity|].
  rewrite !andb_true_iff. intros [Dy Dl] [Hy Hl].
  rewrite (SortCompare_dated _ _ Dx Dy).
  destruct (not_older getTime x y) eqn:C; simpl.
  - rewrite C, Hy, Hl; simpl. rewrite andb_true_r.
    rewrite forallb_forall in *. intros z Hz.
    eapply not_older_trans; [exact C | now apply Hy].
  - rewrite IH by assumption. rewrite andb_true_r.
    apply (forallb_perm _ (sort_insert_perm x l)). simpl.
    now rewrite Hy, (not_older_total _ _ Dx Dy C).
Qed.

Lemma sort_dated (l : list Note) :
  forallb (dated getTime) l = true -> forallb (dated getTime) (sort getTime l) = true.
Proof. apply forallb_perm, sort_perm. Qed.

(** On dated notes [sort] returns the list newest first. *)
Lemma sort_sorted (l : list Note) :
  forallb (dated getTime) l = true -> sorted_desc getTime (sort getTime l) = true.
Proof.
  induction l as [|x l IH]; simpl; [reflexivity|].
  rewrite andb_true_iff. intros [Dx Dl].
  apply sort_insert_sorted; auto using sort_dated.
Qed.

(** A list that is already newest first is left as it is. *)
Lemma sort_of_sorted (l : list Note) :
  forallb (dated getTime) l = true -> sorted_desc getTime l = true -> sort getTime l = l.
Proof.
  induction l as [|x l IH]; simpl; [reflexivity|].
  rewrite !andb_true_iff. intros [Dx Dl] [Hx Hl].
  rewrite IH by assumption.
  destruct l as [|y l]; simpl in *; [reflexivity|].
  apply andb_true_iff in Dl as [Dy _]. apply andb_true_iff in Hx as [Hxy _].
  now rewrite (SortCompare_dated _ _ Dx Dy), Hxy.
Qed.

Lemma sorted_desc_filter (f : Note -> bool) (l : list Note) :
  sorted_desc getTime l = true -> sorted_desc getTime (filter f l) = true.
Proof.
  induction l as [|x l IH]; simpl; [reflexivity|].
  rewrite andb_true_iff. intros [Hx Hl].
  destruct (f x); simpl; [|now apply IH].
  rewrite IH by assumption. rewrite andb_true_r.
  rewrite forallb_forall in *. intros z Hz.
  apply Hx. now apply filter_In in Hz.
Qed.

(** The boolean test says what [StronglySorted] says. *)
Lemma sorted_desc_spec (l : list Note) :
  sorted_desc getTime l = true <->
  StronglySorted (fun a b => not_older getTime a b = true) l.
Proof.
  induction l as [|x l IH]; simpl.
  - split; [constructor | reflexivity].
  - rewrite andb_true_iff, IH, forallb_forall, <- Forall_forall. split.
    + intros [H1 H2]. now constructor.
    + intros H. inversion H; subst. auto.
Qed.

(** *** The sort is the stable one *)

Lemma at_time_dated (t : Z) (n : Note) :
  at_time getTime t n = true -> dated getTime n = true.
Proof.
  unfold at_time, dated. now destruct (getTime (updatedAt n)).
Qed.

Lemma dated_at_time (n : Note) :
  dated getTime n = true -> exists t, at_time getTime t n = true.
Proof.
  unfold at_time, dated. destruct (getTime (updatedAt n)) as [t|];
    [|discriminate].
  intros _. exists t. apply Z.eqb_refl.
Qed.

Lemma at_time_not_older (t u : Z) (x y : Note) :
  at_time getTime t x = true -> at_time getTime u y = true ->
  not_older getTime x y = (u <=? t)%Z.
Proof.
  unfold at_time, not_older.
  destruct (getTime (updatedAt x)), (getTime (updatedAt y)); try discriminate.
  rewrite !Z.eqb_eq. now intros -> ->.
Qed.

Lemma at_time_fun (t u : Z) (x : Note) :
  at_time getTime t x = true -> at_time getTime u x = true -> t = u.
Proof.
  unfold at_time. destruct (getTime (updatedAt x)); [|discriminate].
  rewrite !Z.eqb_eq. congruence.
Qed.

(** Notes of one instant keep their relative order through an insertion. *)
Lemma sort_insert_stable (t : Z) (x : Note) (l : list Note) :
  dated getTime x = true -> forallb (dated getTime) l = true ->
  filter (at_time getTime t) (sort_insert getTime x l)
  = filter (at_time getTime t) (x :: l).
Proof.
  intros Dx. induction l as [|y l IH]; [reflexivity|].
  intros D. simpl in D. apply andb_true_iff in D as [Dy Dl].
  cbn [sort_insert]. rewrite (SortCompare_dated _ _ Dx Dy).
  destruct (not_older getTime x y) eqn:C; [reflexivity|].
  cbn [filter]. rewrite (IH Dl). cbn [filter].
  destruct (at_time getTime t x) eqn:Tx, (at_time getTime t y) eqn:Ty;
    try reflexivity.
  rewrite (@at_time_not_older _ _ _ _ Tx Ty) in C.
  apply Z.leb_gt in C. lia.
Qed.

Lemma sort_stable (t : Z) (l : list Note) :
  forallb (dated getTime) l = true ->
  filter (at_time getTime t) (sort getTime l) = filter (at_time getTime t) l.
Proof.
  induction l as [|x l IH]; [reflexivity|].
  intros D. simpl in D. apply andb_true_iff in D as [Dx Dl].
  cbn [sort]. rewrite sort_insert_stable by auto using sort_dated.
  cbn [filter]. now rewrite IH.
Qed.

(** The first entry of a sorted list is at the latest instant in it. *)
Lemma sorted_head_latest (t u : Z) (x : Note) (l : list Note) :
  sorted_desc getTime (x :: l) = true ->
  at_time getTime t x = true ->
  filter (at_time getTime u) (x :: l) <> [] -> (u <= t)%Z.
Proof.
  intros S Tx F.
  destruct (filter (at_time getTime u) (x :: l)) as [|z r] eqn:E;
    [congruence|].
  assert (Hz : In z (filter (at_time getTime u) (x :: l)))
    by (rewrite E; now left).
  apply filter_In in Hz as [[<-|Hz] Tz].
  - rewrite (@at_time_fun _ _ _ Tx Tz). lia.
  - simpl in S. apply andb_true_iff in S as [S _].
    rewrite forallb_forall in S. specialize (S z Hz).
    rewrite (@at_time_not_older _ _ _ _ Tx Tz) in S. now apply Z.leb_le.
Qed.

(** Two sorted lists with the same notes in the same order at every
    instant are one list. *)
Lemma sorted_stable_unique (l1 l2 : list Note) :
  forallb (dated getTime) l1 = true -> forallb (dated getTime) l2 = true ->
  sorted_desc getTime l1 = true -> sorted_desc getTime l2 = true ->
  (forall t, filter (at_time getTime t) l1 = filter (at_time getTime t) l2) ->
  l1 = l2.
Proof.
  revert l2. induction l1 as [|x l1 IH]; intros [|y l2] D1 D2 S1 S2 F.
  - reflexivity.
  - simpl in D2. apply andb_true_iff in D2 as [Dy _].
    destruct (@dated_at_time _ Dy) as [u Ty].
    specialize (F u). simpl in F. rewrite Ty in F. discriminate.
  - simpl in D1. apply andb_true_iff in D1 as [Dx _].
    destruct (@dated_at_time _ Dx) as [t Tx].
    specialize (F t). simpl in F. rewrite Tx in F. discriminate.
  - pose proof D1 as D1'. pose proof D2 as D2'.
    simpl in D1', D2'.
    apply andb_true_iff in D1' as [Dx Dl1].
    apply andb_true_iff in D2' as [Dy Dl2].
    destruct (@dated_at_time _ Dx) as [t Tx].
    destruct (@dated_at_time _ Dy) as [u Ty].
    assert (Htu : (t <= u)%Z).
    { apply (@sorted_head_latest u t y l2 S2 Ty). rewrite <- F.
      simpl. rewrite Tx. discriminate. }
    assert (Hut : (u <= t)%Z).
    { apply (@sorted_head_latest t u x l1 S1 Tx). rewrite F.
      simpl. rewrite Ty. discriminate. }
    assert (u = t) by lia. subst u.
    pose proof (F t) as Ft. simpl in Ft. rewrite Tx, Ty in Ft.
    injection Ft as -> Ft.
    f_equal. apply IH; auto.
    + simpl in S1. now apply andb_true_iff in S1.
    + simpl in S2. now apply andb_true_iff in S2.
    + intros v. specialize (F v). simpl in F.
      destruct (at_time getTime v y); [now injection F | exact F].
Qed.

(** On notes whose dates can be read, every way of sorting that is stable
    and puts the newest first returns what [sort] returns. *)
Lemma sort_determined (l l' : list Note) :
  forallb (dated getTime) l = true ->
  forallb (dated getTime) l' = true ->
  sorted_desc getTime l' = true ->
  (forall t, filter (at_time getTime t) l' = filter (at_time getTime t) l) ->
  l' = sort getTime l.
Proof.
  intros D D' S F.
  apply sorted_stable_unique; auto using sort_dated, sort_sorted.
  intros t. now rewrite F, sort_stable.
Qed.

End SortFacts.

(** ** The gateway *)

Example request_failed_404 :
  api (Sample.refuses (T := Note) 404 [] (mkRequest GET (lit "/notes") None))
  = inl (ErrorInstance (lit "Request failed: 404")).
Proof. reflexivity. Qed.

Example request_failed_body :
  api (Sample.refuses (T := Note) 500 (lit "boom") (mkRequest GET (lit "/notes") None))
  = inl (ErrorInstance (lit "boom")).
Proof. reflexivity. Qed.

Lemma ok_204 {T} (res : Response T) : status res = 204%N -> ok res = true.
Proof. unfold ok. now intros ->. Qed.

(** The error of a non-success status always carries some text. *)
Lemma failure_message_nonempty {T} (res : Response T) :
  failure_message res <> [].
Proof.
  unfold failure_message, or_else.
  destruct (text res) as [[|c t]|]; simpl; discriminate.
Qed.

(** C7: a response whose status is outside 200..299 makes [api], through
    which each of list, create, update and delete goes, reject with an
    [Error] whose message is the body text when that text is not empty and
    "Request failed: <status>" otherwise (also when the body cannot be
    read). *)
Theorem api_non_success {T} (res : Response T) :
  (status res < 200 \/ 299 < status res)%N ->
  api (Resolved res)
  = inl (ErrorInstance
           match text res with
           | Some (c :: t) => c :: t
           | _ => lit "Request failed: " ++ of_N (status res)
           end).
Proof.
  intros H. unfold api, ok.
  replace ((200 <=? status res) && (status res <=? 299))%N with false.
  - simpl. unfold failure_message, or_else.
    now destruct (text res) as [[|c t]|].
  - symmetry. apply andb_false_iff. rewrite !N.leb_gt. lia.
Qed.

Lemma api_non_success_witness :
  api (Resolved (mkResponse (T := Note) 503 (Some []) (inr Sample.note1)))
  = inl (ErrorInstance (lit "Request failed: 503")).
Proof. apply (@api_non_success Note); simpl; lia. Defined.

(** C3: for delete, a 204 reply is a success that carries no decoded
    value (the body is not read, whatever reading it would give): the entry
    is dropped and no error is shown; a reply whose status is outside
    200..299 is a failure with an [Error]: its message is shown and the
    collection is kept. *)
Theorem delete_reply_status {T} (i : jsstring) (st : State)
    (net : Request -> Reply T) (res : Response T) :
  net (mkRequest DELETE (lit "/notes/" ++ i) None) = Resolved res ->
  (status res = 204%N ->
     api (Resolved res) = inr None
     /\ deleteNote i st net
        = (deleteNote_settle i (@inr Thrown (option T) None)
             (fst (deleteNote_begin i st)),
           [(mkRequest DELETE (lit "/notes/" ++ i) None, inr None)])
     /\ errorMessage (fst (deleteNote i st net)) = None
     /\ notes (fst (deleteNote i st net))
        = filter (fun n => negb (str_eqb (id n) i)) (notes st))
  /\ (ok res = false ->
     api (Resolved res) = inl (ErrorInstance (failure_message res))
     /\ errorMessage (fst (deleteNote i st net)) = Some (failure_message res)
     /\ notes (fst (deleteNote i st net)) = notes st).
Proof.
  intros Hnet. split.
  - intros H204.
    assert (Hapi : api (Resolved res) = inr None).
    { unfold api. rewrite (ok_204 res H204), H204. reflexivity. }
    split; [exact Hapi|].
    unfold deleteNote, deleteNote_begin. cbv beta iota zeta.
    rewrite Hnet, Hapi. simpl.
    repeat split;
      now destruct (selected_is (selectedId st) i).
  - intros Hok.
    assert (Hapi : api (Resolved res) = inl (ErrorInstance (failure_message res))).
    { unfold api. now rewrite Hok. }
    split; [exact Hapi|].
    unfold deleteNote, deleteNote_begin. cbv beta iota zeta.
    rewrite Hnet, Hapi. simpl. auto.
Qed.

Lemma delete_reply_status_witness :
  notes (fst (deleteNote (lit "3") Sample.loaded (Sample.no_content (T := unit))))
  = [Sample.note1; Sample.note2]
  /\ errorMessage (fst (deleteNote (lit "3") Sample.loaded
                          (Sample.refuses (T := unit) 404 (lit "Not found"))))
     = Some (lit "Not found").
Proof.
  split.
  - apply (delete_reply_status (T := unit) (lit "3") Sample.loaded
             Sample.no_content eq_refl); reflexivity.
  - apply (delete_reply_status (T := unit) (lit "3") Sample.loaded
             (Sample.refuses 404 (lit "Not found")) eq_refl); reflexivity.
Defined.

(** It is the status that tells an empty body: a 200 without one is read
    as JSON, which fails, and the delete counts as failed. *)
Example delete_200_without_body :
  fst (deleteNote (lit "3") Sample.loaded
         (fun _ => Resolved (mkResponse (T := unit) 200 (Some [])
                     (inl (ErrorInstance (lit "Unexpected end of JSON input"))))))
  = mkState [Sample.note1; Sample.note2; Sample.note3] false false None None
      [] [] (Some (lit "Unexpected end of JSON input")).
Proof. reflexivity. Qed.

(** ** The view-model *)

(** C9: [startCreate] clears the selection, the draft and the error
    message, touches nothing else, and doing it twice is doing it once. *)
Theorem startCreate_idempotent (st : State) :
  startCreate (startCreate st) = startCreate st
  /\ selectedId (startCreate st) = None
  /\ formTitle (startCreate st) = []
  /\ formContent (startCreate st) = []
  /\ errorMessage (startCreate st) = None
  /\ notes (startCreate st) = notes st
  /\ loading (startCreate st) = loading st
  /\ saving (startCreate st) = saving st
  /\ deletingId (startCreate st) = deletingId st.
Proof. repeat split. Qed.

(** C8: when the list call of a load fails, the error message is the
    failure's message, or "Failed to load notes" when what was thrown is
    not an [Error]; loading is cleared and the collection is the one from
    before. *)
Theorem loadNotes_failure (st : State) (net : Request -> Reply (list Note))
    (e : Thrown) :
  api (net (mkRequest GET (lit "/notes") None)) = inl e ->
  exists st',
    loadNotes st net = Some (st', [(mkRequest GET (lit "/notes") None, inl e)])
    /\ errorMessage st'
       = Some match e with
              | ErrorInstance m => m
              | OtherValue => lit "Failed to load notes"
              end
    /\ loading st' = false
    /\ notes st' = notes st.
Proof.
  intros H. unfold loadNotes, loadNotes_begin. cbv beta iota zeta.
  rewrite H. simpl.
  eexists. split; [reflexivity|]. simpl. now destruct e.
Qed.

Lemma loadNotes_failure_witness :
  exists st',
    loadNotes Sample.loaded (fun _ => Rejected OtherValue)
    = Some (st', [(mkRequest GET (lit "/notes") None, inl OtherValue)])
    /\ errorMessage st' = Some (lit "Failed to load notes")
    /\ loading st' = false
    /\ notes st' = notes Sample.loaded.
Proof.
  apply (loadNotes_failure Sample.loaded (fun _ => Rejected OtherValue)).
  reflexivity.
Defined.

Example load_empty :
  loadNotes initial (Sample.replies [])
  = Some (mkState [] false false None None [] [] None,
          [(mkRequest GET (lit "/notes") None, inr (Some []))]).
Proof. reflexivity. Qed.

Example load_server_down :
  option_map fst (loadNotes initial (Sample.refuses 500 []))
  = Some (mkState [] false false None None [] []
            (Some (lit "Request failed: 500"))).
Proof. reflexivity. Qed.

(** C6: after a successful delete no entry carries the identifier and the
    other entries are kept in their order; when the identifier was the
    selected one, the page is as [startCreate] leaves it: nothing selected,
    the draft empty. *)
Theorem deleteNote_success {T} (i : jsstring) (st : State)
    (net : Request -> Reply T) (v : option T) :
  api (net (mkRequest DELETE (lit "/notes/" ++ i) None)) = inr v ->
  exists st',
    deleteNote i st net
    = (st', [(mkRequest DELETE (lit "/notes/" ++ i) None, inr v)])
    /\ notes st' = filter (fun n => negb (str_eqb (id n) i)) (notes st)
    /\ ~ In i (map id (notes st'))
    /\ (forall n, In n (notes st) -> id n <> i -> In n (notes st'))
    /\ deletingId st' = None
    /\ (selectedId st = Some i ->
        st' = set_deletingId None (startCreate st')
        /\ selectedId st' = None /\ formTitle st' = [] /\ formContent st' = [])
    /\ (selectedId st <> Some i ->
        selectedId st' = selectedId st /\ formTitle st' = formTitle st
        /\ formContent st' = formContent st).
Proof.
  intros H. unfold deleteNote, deleteNote_begin. cbv beta iota zeta.
  rewrite H.
  eexists. split; [reflexivity|].
  assert (Hn : forall s : State,
            notes (if selected_is (selectedId st) i then startCreate s else s)
            = notes s) by (intros s; now destruct (selected_is _ _)).
  unfold deleteNote_settle. simpl. rewrite Hn. simpl.
  split; [reflexivity|]. split.
  { rewrite in_map_iff. intros (n & Hi & Hin).
    apply filter_In in Hin as [_ Hin]. subst i.
    now rewrite str_eqb_refl in Hin. }
  split.
  { intros n Hin Hne. apply filter_In. split; [exact Hin|].
    apply negb_true_iff. now apply str_eqb_neq. }
  split; [now destruct (selected_is _ _)|]. split.
  - intros Hs. rewrite Hs. simpl. rewrite str_eqb_refl. repeat split.
  - intros Hs.
    assert (Hf : selected_is (selectedId st) i = false).
    { destruct (selectedId st) as [j|]; simpl; [|reflexivity].
      apply str_eqb_neq. congruence. }
    rewrite Hf. repeat split.
Qed.

Lemma deleteNote_success_witness :
  exists st',
    deleteNote (lit "1") Sample.editing (Sample.no_content (T := unit))
    = (st', [(mkRequest DELETE (lit "/notes/1") None, inr None)])
    /\ notes st' = [Sample.note2]
    /\ selectedId st' = None /\ formTitle st' = [] /\ formContent st' = [].
Proof.
  destruct (deleteNote_success (T := unit) (lit "1") Sample.editing
              Sample.no_content (v := None) eq_refl)
    as (st' & Hrun & Hnotes & _ & _ & _ & Hsel & _).
  exists st'. split; [exact Hrun|]. split; [exact Hnotes|].
  apply Hsel. reflexivity.
Defined.

(** *** save *)

Lemma truthy_trim (s : jsstring) :
  truthy (trim s) = negb (forallb is_space s).
Proof.
  destruct (forallb is_space s) eqn:E.
  - apply trim_blank in E. now rewrite E.
  - destruct (trim s) eqn:F; [|reflexivity].
    apply trim_blank in F. congruence.
Qed.

(** What the synchronous prefix of [save] does once the title passes. *)
Lemma save_begin_valid (st : State) :
  forallb is_space (formTitle st) = false ->
  save_begin st
  = (set_saving true (set_errorMessage None st),
     Some match selected_truthy (selectedId st) with
          | Some sel =>
              (UpdateBranch,
               mkRequest PUT (lit "/notes/" ++ sel)
                 (Some (trim (formTitle st), formContent st)))
          | None =>
              (CreateBranch,
               mkRequest POST (lit "/notes")
                 (Some (trim (formTitle st), formContent st)))
          end).
Proof.
  intros H. unfold save_begin.
  change (formTitle (set_errorMessage None st)) with (formTitle st).
  rewrite truthy_trim, H.
  change (negb (negb false)) with false. cbv beta iota zeta.
  change (selectedId (set_saving true (set_errorMessage None st)))
    with (selectedId st).
  now destruct (selected_truthy (selectedId st)).
Qed.

(** A request leaves [save] only after the prefix: whatever it issues, the
    collection and the selection are still the ones from before. *)
Lemma save_begin_frame (st st1 : State) (o : option (Branch * Request)) :
  save_begin st = (st1, o) ->
  notes st1 = notes st /\ selectedId st1 = selectedId st
  /\ (o <> None -> st1 = set_saving true (set_errorMessage None st)).
Proof.
  unfold save_begin.
  destruct (negb (truthy (trim (formTitle (set_errorMessage None st))))).
  - intros [= <- <-]. repeat split. congruence.
  - destruct (selected_truthy _); intros [= <- <-]; repeat split.
Qed.

(** C2: with a title that is empty or white space only, [save] shows
    "Title is required.", makes no call, and leaves every other variable
    of the page, the collection and the selection among them, as it was. *)
Theorem save_blank_title (getTime : jsstring -> option Z) (st : State)
    (net : Request -> Reply Note) :
  forallb is_space (formTitle st) = true ->
  save getTime st net
  = Some (set_errorMessage (Some (lit "Title is required.")) st, [])
  /\ save_begin st
     = (set_errorMessage (Some (lit "Title is required.")) st, None).
Proof.
  intros H.
  assert (B : save_begin st
              = (set_errorMessage (Some (lit "Title is required.")) st, None)).
  { unfold save_begin.
    change (formTitle (set_errorMessage None st)) with (formTitle st).
    now rewrite truthy_trim, H. }
  split; [|exact B]. unfold save. now rewrite B.
Qed.

Lemma save_blank_title_witness :
  save Iso.getTime Sample.blank Sample.offline
  = Some (mkState [Sample.note2; Sample.note1] false false None
            (Some (lit "1")) (lit "  " ++ [160%N]) (lit "body2")
            (Some (lit "Title is required.")), []).
Proof.
  apply (save_blank_title Iso.getTime Sample.blank Sample.offline).
  reflexivity.
Defined.

(** C4: when the call of a [save] fails, whichever branch made it, the
    error message is the failure's message ("Failed to save note" when
    what was thrown is not an [Error]), the collection and the selection
    are the ones from before the save, and saving is cleared; saving is
    cleared as well however else the call settles. *)
Theorem save_gateway_failure (getTime : jsstring -> option Z) (st st1 : State)
    (net : Request -> Reply Note) (b : Branch) (req : Request) (e : Thrown) :
  save_begin st = (st1, Some (b, req)) ->
  api (net req) = inl e ->
  (exists st',
     save getTime st net = Some (st', [(req, inl e)])
     /\ errorMessage st'
        = Some match e with
               | ErrorInstance m => m
               | OtherValue => lit "Failed to save note"
               end
     /\ notes st' = notes st
     /\ selectedId st' = selectedId st
     /\ saving st' = false)
  /\ (forall r s, saving (save_settle getTime b r s) = false).
Proof.
  intros B H. split.
  - unfold save. rewrite B, H. simpl.
    eexists. split; [reflexivity|].
    destruct (save_begin_frame st B) as (Hn & Hs & _).
    simpl. rewrite Hn, Hs. now destruct e.
  - intros r s. unfold save_settle.
    now destruct r.
Qed.

Lemma save_gateway_failure_witness :
  exists st',
    save Iso.getTime Sample.editing (Sample.refuses 500 (lit "boom"))
    = Some (st', [(mkRequest PUT (lit "/notes/1")
                     (Some (lit "New", lit "body2")),
                   inl (ErrorInstance (lit "boom")))])
    /\ errorMessage st' = Some (lit "boom")
    /\ notes st' = [Sample.note2; Sample.note1]
    /\ selectedId st' = Some (lit "1")
    /\ saving st' = false.
Proof.
  apply (@save_gateway_failure Iso.getTime Sample.editing _
            (Sample.refuses 500 (lit "boom")) UpdateBranch _ _
            eq_refl eq_refl).
Defined.

(** C5: a [save] with nothing selected whose create call returns a note
    puts that note in front of the collection, which is then re-sorted: the
    collection holds the former entries and the new one, one entry more
    than before, and the selection is the new note's identifier.  When the
    dates can be read the collection ends sorted, and the note is still in
    front after the re-sort when it is not older than the entries of a
    sorted collection. *)
Theorem save_create (getTime : jsstring -> option Z) (st : State)
    (net : Request -> Reply Note) (created : Note) :
  selectedId st = None ->
  forallb is_space (formTitle st) = false ->
  api (net (mkRequest POST (lit "/notes")
              (Some (trim (formTitle st), formContent st))))
  = inr (Some created) ->
  exists st',
    save getTime st net
    = Some (st', [(mkRequest POST (lit "/notes")
                     (Some (trim (formTitle st), formContent st)),
                   inr (Some created))])
    /\ Permutation (created :: notes st) (notes st')
    /\ List.length (notes st') = S (List.length (notes st))
    /\ In created (notes st')
    /\ (forall n, In n (notes st) -> In n (notes st'))
    /\ selectedId st' = Some (id created)
    /\ saving st' = false
    /\ errorMessage st' = None
    /\ (forallb (dated getTime) (created :: notes st) = true ->
        notes st' = sort getTime (created :: notes st)
        /\ sorted_desc getTime (notes st') = true
        /\ (sorted_desc getTime (created :: notes st) = true ->
            notes st' = created :: notes st)).
Proof.
  intros Hsel Hval Hapi. unfold save.
  rewrite (save_begin_valid st Hval), Hsel.
  cbv beta iota zeta delta [selected_truthy]. rewrite Hapi.
  eexists. split; [reflexivity|].
  change (notes (save_settle getTime CreateBranch (inr created)
                   (set_saving true (set_errorMessage None st))))
    with (sort getTime (created :: notes st)).
  repeat split.
  - apply sort_perm.
  - rewrite sort_length. reflexivity.
  - apply sort_In. now left.
  - intros n Hn. apply sort_In. now right.
  - now apply sort_sorted.
  - now apply sort_of_sorted.
Qed.

Lemma save_create_witness :
  exists st',
    save Iso.getTime Sample.drafting (Sample.replies Sample.note3)
    = Some (st', [(mkRequest POST (lit "/notes")
                     (Some (lit "Title C", lit "last")),
                   inr (Some Sample.note3))])
    /\ notes st' = [Sample.note3; Sample.note2; Sample.note1]
    /\ List.length (notes st') = 3
    /\ selectedId st' = Some (lit "3").
Proof.
  destruct (save_create Iso.getTime Sample.drafting
              (Sample.replies Sample.note3) eq_refl eq_refl eq_refl)
    as (st' & Hrun & _ & Hlen & _ & _ & Hsel & _ & _ & Hdated).
  exists st'. repeat split; try assumption.
  apply Hdated; reflexivity.
Defined.

Example create_first_note :
  option_map fst
    (save Iso.getTime
       (mkState [] false false None None (lit "Title A") (lit "body") None)
       (Sample.replies Sample.note1))
  = Some (mkState [Sample.note1] false false None (Some (lit "1"))
            (lit "Title A") (lit "body") None).
Proof. reflexivity. Qed.

(** In the collection the created note goes where its date puts it. *)
Example create_older_note :
  option_map (fun r => map id (notes (fst r)))
    (save Iso.getTime
       (mkState [Sample.note3; Sample.note1] false false None None
          (lit "Title B") [] None)
       (Sample.replies Sample.note2))
  = Some [lit "3"; lit "2"; lit "1"].
Proof. reflexivity. Qed.

(** The update branch, unfolded: every entry that carries the identifier
    of the returned note becomes that note, then the collection is
    re-sorted; the selection is not consulted and not changed.  The order
    written here is that of [sort]: the engine's when the notes are
    dated. *)
Lemma save_update (getTime : jsstring -> option Z) (st : State)
    (net : Request -> Reply Note) (sel : jsstring) (updated : Note) :
  selectedId st = Some sel -> sel <> [] ->
  forallb is_space (formTitle st) = false ->
  api (net (mkRequest PUT (lit "/notes/" ++ sel)
              (Some (trim (formTitle st), formContent st))))
  = inr (Some updated) ->
  save getTime st net
  = Some (mkState
            (sort getTime
               (map (fun n => if str_eqb (id n) (id updated) then updated else n)
                    (notes st)))
            (loading st) false (deletingId st) (Some sel)
            (formTitle st) (formContent st) None,
          [(mkRequest PUT (lit "/notes/" ++ sel)
              (Some (trim (formTitle st), formContent st)),
            inr (Some updated))]).
Proof.
  intros Hsel Hne Hval Hapi. unfold save.
  rewrite (save_begin_valid st Hval), Hsel.
  destruct sel as [|c sel]; [congruence|].
  cbv beta iota zeta delta [selected_truthy truthy]. rewrite Hapi.
  cbv beta iota zeta delta [typed]. rewrite <- Hsel. reflexivity.
Qed.

Lemma map_replace_absent (u : Note) (l : list Note) :
  ~ In (id u) (map id l) ->
  map (fun n => if str_eqb (id n) (id u) then u else n) l = l.
Proof.
  induction l as [|x l IH]; simpl; [reflexivity|].
  intros H. rewrite IH by tauto.
  destruct (str_eqb (id x) (id u)) eqn:E; [|reflexivity].
  apply str_eqb_eq in E. tauto.
Qed.

Lemma map_replace_dated (getTime : jsstring -> option Z) (u : Note)
    (l : list Note) :
  dated getTime u = true -> forallb (dated getTime) l = true ->
  forallb (dated getTime)
    (map (fun n => if str_eqb (id n) (id u) then u else n) l) = true.
Proof.
  intros Du. induction l as [|x l IH]; simpl; [reflexivity|].
  rewrite !andb_true_iff. intros [Dx Dl]. split; [|now apply IH].
  now destruct (str_eqb (id x) (id u)).
Qed.

Lemma map_replace_In (u n : Note) (l : list Note) :
  In n (map (fun x => if str_eqb (id x) (id u) then u else x) l) <->
  (n = u /\ In (id u) (map id l)) \/ (In n l /\ id n <> id u).
Proof.
  rewrite in_map_iff. split.
  - intros (x & <- & Hx). destruct (str_eqb (id x) (id u)) eqn:E.
    + left. split; [reflexivity|]. apply str_eqb_eq in E.
      rewrite <- E. now apply in_map.
    + right. split; [exact Hx | now apply str_eqb_neq].
  - intros [[-> Hin]|[Hin Hne]].
    + apply in_map_iff in Hin as (x & Hx & Hin). exists x.
      apply str_eqb_eq in Hx. now rewrite Hx.
    + exists n. apply str_eqb_neq in Hne. now rewrite Hne.
Qed.

(** C10: in the update branch the entry to replace is looked up by the
    identifier of the note the server returned, whatever is selected: the
    entries that carry that identifier become the returned note, the
    others stay, and the collection is re-sorted (newest first when the
    dates can be read); the selection stays.  When no entry carries that
    identifier, a successful update replaces and inserts nothing: the
    collection holds the notes it held, re-sorted. *)
Theorem save_update_foreign_id (getTime : jsstring -> option Z) (st : State)
    (net : Request -> Reply Note) (sel : jsstring) (updated : Note) :
  selectedId st = Some sel -> sel <> [] ->
  forallb is_space (formTitle st) = false ->
  api (net (mkRequest PUT (lit "/notes/" ++ sel)
              (Some (trim (formTitle st), formContent st))))
  = inr (Some updated) ->
  exists st',
    save getTime st net
    = Some (st', [(mkRequest PUT (lit "/notes/" ++ sel)
                     (Some (trim (formTitle st), formContent st)),
                   inr (Some updated))])
    /\ Permutation
         (map (fun n => if str_eqb (id n) (id updated) then updated else n)
              (notes st))
         (notes st')
    /\ (forall n, In n (notes st') <->
                  (n = updated /\ In (id updated) (map id (notes st)))
                  \/ (In n (notes st) /\ id n <> id updated))
    /\ (forallb (dated getTime) (updated :: notes st) = true ->
        sorted_desc getTime (notes st') = true)
    /\ selectedId st' = Some sel
    /\ errorMessage st' = None
    /\ (~ In (id updated) (map id (notes st)) ->
        Permutation (notes st) (notes st')
        /\ (forall n, In n (notes st') <-> In n (notes st))
        /\ ~ In updated (notes st')
        /\ (forallb (dated getTime) (notes st) = true ->
            notes st' = sort getTime (notes st)
            /\ sorted_desc getTime (notes st') = true)).
Proof.
  intros Hsel Hne Hval Hapi.
  rewrite (save_update getTime st net Hsel Hne Hval Hapi).
  eexists. split; [reflexivity|]. cbn [notes selectedId errorMessage].
  split; [apply sort_perm|]. split.
  { intros n. rewrite sort_In. apply map_replace_In. }
  split.
  { intros D. cbn [forallb] in D. apply andb_true_iff in D as [Du Dl].
    apply sort_sorted. now apply map_replace_dated. }
  split; [reflexivity|]. split; [reflexivity|].
  intros Habs. rewrite (map_replace_absent _ _ Habs).
  split; [apply sort_perm|]. split; [intros n; apply sort_In|]. split.
  - intros Hin. apply sort_In in Hin. apply Habs. now apply in_map.
  - intros D. split; [reflexivity | now apply sort_sorted].
Qed.

Lemma save_update_foreign_id_witness :
  exists st',
    save Iso.getTime Sample.loaded' (Sample.replies Sample.stray)
    = Some (st', [(mkRequest PUT (lit "/notes/" ++ lit "1")
                     (Some (trim (lit " New "), lit "body2")),
                   inr (Some Sample.stray))])
    /\ notes st' = [Sample.note3; Sample.note2; Sample.note1]
    /\ (forall n, In n (notes st') <->
                  In n [Sample.note1; Sample.note2; Sample.note3])
    /\ selectedId st' = Some (lit "1").
Proof.
  destruct (@save_update_foreign_id Iso.getTime Sample.loaded'
              (Sample.replies Sample.stray) (lit "1") Sample.stray eq_refl)
    as (st' & Hrun & _ & _ & _ & Hsel & _ & Habs);
    try reflexivity; try discriminate.
  destruct Habs as (_ & Hmem & _ & Hsorted).
  { simpl. intros [H|[H|[H|[]]]]; discriminate H. }
  exists st'. split; [exact Hrun|]. split; [|split; assumption].
  now apply Hsorted.
Defined.

(** The entry is the returned one's, not the selected one's: with note 1
    selected and note 2 returned, it is note 2's entry that changes. *)
Example update_keyed_on_returned_id :
  option_map (fun r => map title (notes (fst r)))
    (save Iso.getTime Sample.editing
       (Sample.replies
          (mkNote (lit "2") (lit "Swapped") [] Sample.T2 Sample.T3)))
  = Some [lit "Swapped"; lit "Title A"].
Proof. reflexivity. Qed.

Example update_selected :
  option_map (fun r => notes (fst r))
    (save Iso.getTime Sample.editing (Sample.replies Sample.note1'))
  = Some [Sample.note1'; Sample.note2].
Proof. reflexivity. Qed.

(** *** Order of the collection *)

(** Whichever branch it took, a [save] whose call returned a note ends
    with the whole collection, as the branch left it, sorted: newest first,
    the notes of one instant in the order they had; as long as the dates
    can be read. *)
Lemma save_sorted (getTime : jsstring -> option Z) (st st1 : State)
    (net : Request -> Reply Note) (b : Branch) (req : Request) (note : Note) :
  save_begin st = (st1, Some (b, req)) ->
  api (net req) = inr (Some note) ->
  forallb (dated getTime) (note :: notes st) = true ->
  exists st',
    save getTime st net = Some (st', [(req, inr (Some note))])
    /\ sorted_desc getTime (notes st') = true
    /\ Permutation
         match b with
         | UpdateBranch =>
             map (fun n => if str_eqb (id n) (id note) then note else n)
                 (notes st)
         | CreateBranch => note :: notes st
         end
         (notes st')
    /\ (forall t,
          filter (at_time getTime t) (notes st')
          = filter (at_time getTime t)
              match b with
              | UpdateBranch =>
                  map (fun n => if str_eqb (id n) (id note) then note else n)
                      (notes st)
              | CreateBranch => note :: notes st
              end).
Proof.
  intros B Hapi D. unfold save. rewrite B, Hapi. simpl.
  eexists. split; [reflexivity|].
  destruct (save_begin_frame st B) as (Hn & _ & _).
  simpl in D. apply andb_true_iff in D as [Dn Dl].
  assert (Du : forallb (dated getTime)
                 (map (fun n => if str_eqb (id n) (id note) then note else n)
                      (notes st)) = true)
    by now apply map_replace_dated.
  assert (Dc : forallb (dated getTime) (note :: notes st) = true)
    by (simpl; now rewrite Dn, Dl).
  destruct b; cbn -[sort]; rewrite Hn.
  - split; [now apply sort_sorted|]. split; [apply sort_perm|].
    intros t. now apply sort_stable.
  - split; [now apply sort_sorted|]. split; [apply sort_perm|].
    intros t. now apply sort_stable.
Qed.

(** C1, as the code has it: a [save] whose call returned a note leaves the
    collection sorted by [updatedAt], newest first, when the dates of the
    collection and of the returned note can be read, and what it sorts is
    the whole collection as its branch left it, the notes of one instant
    keeping their order; a successful delete does not sort: it keeps the
    remaining entries in the order they had, so the collection is sorted
    after it when it was before; a successful load stores the list as the
    server gave it, in the server's order. *)
Theorem save_sorts_delete_keeps_order (getTime : jsstring -> option Z)
    (st : State) :
  (forall (net : Request -> Reply Note) st1 b req note,
     save_begin st = (st1, Some (b, req)) ->
     api (net req) = inr (Some note) ->
     forallb (dated getTime) (note :: notes st) = true ->
     exists st',
       save getTime st net = Some (st', [(req, inr (Some note))])
       /\ sorted_desc getTime (notes st') = true
       /\ Permutation
            match b with
            | UpdateBranch =>
                map (fun n => if str_eqb (id n) (id note) then note else n)
                    (notes st)
            | CreateBranch => note :: notes st
            end
            (notes st')
       /\ (forall t,
             filter (at_time getTime t) (notes st')
             = filter (at_time getTime t)
                 match b with
                 | UpdateBranch =>
                     map (fun n => if str_eqb (id n) (id note)
                                   then note else n)
                         (notes st)
                 | CreateBranch => note :: notes st
                 end))
  /\ (forall T i (net : Request -> Reply T) (v : option T),
     api (net (mkRequest DELETE (lit "/notes/" ++ i) None)) = inr v ->
     notes (fst (deleteNote i st net))
     = filter (fun n => negb (str_eqb (id n) i)) (notes st)
     /\ (sorted_desc getTime (notes st) = true ->
         sorted_desc getTime (notes (fst (deleteNote i st net))) = true))
  /\ (forall (net : Request -> Reply (list Note)) (l : list Note),
     api (net (mkRequest GET (lit "/notes") None)) = inr (Some l) ->
     exists st',
       loadNotes st net
       = Some (st', [(mkRequest GET (lit "/notes") None, inr (Some l))])
       /\ notes st' = l).
Proof.
  split; [|split].
  - intros net st1 b req note. apply save_sorted.
  - intros T i net v H.
    assert (E : notes (fst (deleteNote i st net))
                = filter (fun n => negb (str_eqb (id n) i)) (notes st)).
    { unfold deleteNote, deleteNote_begin. cbv beta iota zeta.
      rewrite H. unfold deleteNote_settle. simpl.
      now destruct (selected_is (selectedId st) i). }
    split; [exact E|]. rewrite E. apply sorted_desc_filter.
  - intros net l H. unfold loadNotes, loadNotes_begin. cbv beta iota zeta.
    rewrite H. eexists. split; reflexivity.
Qed.

Lemma save_sorts_delete_keeps_order_witness :
  (exists st',
     save Iso.getTime Sample.loaded' (Sample.replies Sample.note1')
     = Some (st', [(mkRequest PUT (lit "/notes/1")
                      (Some (lit "New", lit "body2")),
                    inr (Some Sample.note1'))])
     /\ sorted_desc Iso.getTime (notes st') = true
     /\ Permutation [Sample.note1'; Sample.note2; Sample.note3] (notes st'))
  /\ sorted_desc Iso.getTime
       (notes (fst (deleteNote (lit "2") Sample.editing
                      (Sample.no_content (T := unit))))) = true
  /\ (exists st',
     loadNotes initial
       (Sample.replies [Sample.note1; Sample.note2; Sample.note3])
     = Some (st', [(mkRequest GET (lit "/notes") None,
                    inr (Some [Sample.note1; Sample.note2; Sample.note3]))])
     /\ notes st' = [Sample.note1; Sample.note2; Sample.note3]).
Proof.
  split; [|split].
  - destruct (save_sorts_delete_keeps_order Iso.getTime Sample.loaded')
      as (Hsave & _ & _).
    destruct (Hsave (Sample.replies Sample.note1') _ UpdateBranch _ _
                eq_refl eq_refl eq_refl)
      as (st' & Hrun & Hsorted & Hperm & _).
    exists st'. repeat split; assumption.
  - destruct (save_sorts_delete_keeps_order Iso.getTime Sample.editing)
      as (_ & Hdelete & _).
    apply (Hdelete unit (lit "2") Sample.no_content None eq_refl).
    reflexivity.
  - destruct (save_sorts_delete_keeps_order Iso.getTime initial)
      as (_ & _ & Hload).
    apply (Hload (Sample.replies [Sample.note1; Sample.note2; Sample.note3])
             _ eq_refl).
Defined.

(** The claim as worded fails for delete.  The server lists three notes
    oldest first; the load takes the list as it comes; deleting note 3 then
    succeeds with 204 and leaves notes 1 and 2, the older one first. *)
Lemma delete_after_load_unsorted :
  loadNotes initial
    (Sample.replies [Sample.note1; Sample.note2; Sample.note3])
  = Some (Sample.loaded,
          [(mkRequest GET (lit "/notes") None,
            inr (Some [Sample.note1; Sample.note2; Sample.note3]))])
  /\ deleteNote (lit "3") Sample.loaded (Sample.no_content (T := unit))
     = (mkState [Sample.note1; Sample.note2] false false None None [] [] None,
        [(mkRequest DELETE (lit "/notes/3") None, inr None)])
  /\ sorted_desc Iso.getTime [Sample.note1; Sample.note2] = false
  /\ Iso.getTime (updatedAt Sample.note1) = Some 1704099600000%Z
  /\ Iso.getTime (updatedAt Sample.note2) = Some 1704186000000%Z.
Proof. repeat split. Qed.

(** ** Further properties of the page *)

(** *** The base URL *)

Lemma strip_trailing_slash_snoc (b : jsstring) :
  Page.strip_trailing_slash (b ++ [47%N]) = b.
Proof.
  unfold Page.strip_trailing_slash. rewrite rev_app_distr. simpl.
  apply rev_involutive.
Qed.

Lemma strip_trailing_slash_other (v : jsstring) :
  last v 0%N <> 47%N -> Page.strip_trailing_slash v = v.
Proof.
  unfold Page.strip_trailing_slash. intros H.
  destruct (rev v) as [|c r] eqn:E; [reflexivity|].
  apply (f_equal (@rev N)) in E. rewrite rev_involutive in E. simpl in E.
  subst v. rewrite last_last in H.
  destruct (N.eqb_spec c 47); [contradiction | reflexivity].
Qed.

(** X1: one slash at the end of the configured base URL is dropped and
    nothing else is touched, so a base written with or without it gives
    the same request addresses. *)
Theorem API_BASE_trailing_slash (b : jsstring) (req : Request) :
  last b 0%N <> 47%N ->
  Page.API_BASE (Some (b ++ lit "/")) = b
  /\ Page.API_BASE (Some b) = b
  /\ Page.url (Some (b ++ lit "/")) req = Page.url (Some b) req
  /\ Page.url (Some b) req = b ++ path req.
Proof.
  intros H. unfold Page.url, Page.API_BASE.
  change (lit "/") with [47%N].
  now rewrite strip_trailing_slash_snoc, (strip_trailing_slash_other _ H).
Qed.

Lemma API_BASE_trailing_slash_witness :
  Page.url (Some (lit "https://notes.example:3001" ++ lit "/"))
    (mkRequest GET (lit "/notes") None)
  = lit "https://notes.example:3001" ++ lit "/notes".
Proof.
  destruct (@API_BASE_trailing_slash (lit "https://notes.example:3001")
              (mkRequest GET (lit "/notes") None)) as (_ & _ & H1 & H2).
  - discriminate.
  - exact (eq_trans H1 H2).
Defined.

(** X2: only the last slash goes, and an empty value is a value: the
    local address is used when the variable is not set, never because of
    what it holds. *)
Theorem API_BASE_configured (v : jsstring) :
  Page.API_BASE (Some v) = v \/ v = Page.API_BASE (Some v) ++ lit "/".
Proof.
  unfold Page.API_BASE, Page.strip_trailing_slash.
  destruct (rev v) as [|c r] eqn:E; [now left|].
  destruct (N.eqb_spec c 47) as [->|]; [right | now left].
  apply (f_equal (@rev N)) in E. now rewrite rev_involutive in E.
Qed.

(** *** The gateway *)

(** X3: [api] resolves only for a response with a status in 200..299; it
    resolves to [undefined] exactly when the status is 204, and otherwise
    to what decoding the body gave. *)
Theorem api_resolves_only_on_2xx {T} (reply : Reply T) (v : option T) :
  api reply = inr v ->
  exists res,
    reply = Resolved res
    /\ (200 <= status res <= 299)%N
    /\ (v = None <-> status res = 204%N)
    /\ (forall x, v = Some x -> json res = inr x).
Proof.
  destruct reply as [e|res]; simpl; [discriminate|].
  destruct (ok res) eqn:Hok; simpl; [|discriminate].
  intros H. exists res. split; [reflexivity|]. split.
  { unfold ok in Hok. apply andb_true_iff in Hok as [H1 H2].
    apply N.leb_le in H1, H2. lia. }
  destruct (N.eqb_spec (status res) 204) as [E|E].
  - injection H as <-. split; [tauto | discriminate].
  - destruct (json res) as [e|x]; [discriminate|].
    injection H as <-. split; [split; [discriminate | contradiction]|].
    now intros y [= <-].
Qed.

Lemma api_resolves_only_on_2xx_witness :
  exists res,
    Sample.no_content (T := Note) (mkRequest GET (lit "/notes") None)
    = Resolved res
    /\ (200 <= status res <= 299)%N
    /\ (@None Note = None <-> status res = 204%N)
    /\ (forall x, None = Some x -> json res = inr x).
Proof.
  apply (@api_resolves_only_on_2xx Note
           (Sample.no_content (mkRequest GET (lit "/notes") None)) None).
  reflexivity.
Defined.

(** *** deleteNote and loadNotes *)

Lemma filter_twice {A} (f : A -> bool) (l : list A) :
  filter f (filter f l) = filter f l.
Proof.
  induction l as [|x l IH]; simpl; [reflexivity|].
  destruct (f x) eqn:E; simpl; now rewrite ?E, IH.
Qed.

Lemma filter_absent (i : jsstring) (l : list Note) :
  ~ In i (map id l) ->
  filter (fun n => negb (str_eqb (id n) i)) l = l.
Proof.
  induction l as [|x l IH]; simpl; [reflexivity|].
  intros H. destruct (str_eqb (id x) i) eqn:E; simpl.
  - apply str_eqb_eq in E. tauto.
  - rewrite IH by tauto. reflexivity.
Qed.

(** X4: when the call of a delete fails, the error message is the
    failure's message, or "Failed to delete note" when what was thrown is
    not an [Error]; the marker of the running delete is cleared and the
    collection, the selection and the draft are the ones from before. *)
Theorem deleteNote_failure {T} (i : jsstring) (st : State)
    (net : Request -> Reply T) (e : Thrown) :
  api (net (mkRequest DELETE (lit "/notes/" ++ i) None)) = inl e ->
  deleteNote i st net
  = (mkState (notes st) (loading st) (saving st) None (selectedId st)
       (formTitle st) (formContent st)
       (Some match e with
             | ErrorInstance m => m
             | OtherValue => lit "Failed to delete note"
             end),
     [(mkRequest DELETE (lit "/notes/" ++ i) None, inl e)]).
Proof.
  intros H. unfold deleteNote, deleteNote_begin. cbv beta iota zeta.
  rewrite H. now destruct e.
Qed.

Lemma deleteNote_failure_witness :
  deleteNote (lit "1") Sample.editing (fun _ => @Rejected unit OtherValue)
  = (mkState [Sample.note2; Sample.note1] false false None (Some (lit "1"))
       (lit " New ") (lit "body2") (Some (lit "Failed to delete note")),
     [(mkRequest DELETE (lit "/notes/" ++ lit "1") None, inl OtherValue)]).
Proof.
  apply (@deleteNote_failure unit (lit "1") Sample.editing
           (fun _ => Rejected OtherValue) OtherValue).
  reflexivity.
Defined.

(** X5: deleting the same identifier again, both calls succeeding,
    changes nothing more: the page is as the first delete left it. *)
Theorem deleteNote_twice {T} (i : jsstring) (st : State)
    (net net' : Request -> Reply T) (v v' : option T) :
  api (net (mkRequest DELETE (lit "/notes/" ++ i) None)) = inr v ->
  api (net' (mkRequest DELETE (lit "/notes/" ++ i) None)) = inr v' ->
  fst (deleteNote i (fst (deleteNote i st net)) net')
  = fst (deleteNote i st net).
Proof.
  intros H H'. unfold deleteNote, deleteNote_begin. cbv beta iota zeta.
  rewrite H, H'. unfold deleteNote_settle, fst.
  destruct st as [ns ld sv dl sel ft fc em].
  destruct sel as [j|]; simpl.
  - destruct (str_eqb j i) eqn:E; simpl; rewrite ?E; simpl;
      now rewrite filter_twice.
  - now rewrite filter_twice.
Qed.

Lemma deleteNote_twice_witness :
  fst (deleteNote (lit "1")
         (fst (deleteNote (lit "1") Sample.editing
                 (Sample.no_content (T := unit))))
         (Sample.replies tt))
  = fst (deleteNote (lit "1") Sample.editing (Sample.no_content (T := unit))).
Proof.
  apply (@deleteNote_twice unit (lit "1") Sample.editing
           Sample.no_content (Sample.replies tt) None (Some tt));
    reflexivity.
Defined.

(** X6: a delete for an identifier no entry carries is sent all the same,
    and its success leaves the collection as it was. *)
Theorem deleteNote_absent {T} (i : jsstring) (st : State)
    (net : Request -> Reply T) (v : option T) :
  ~ In i (map id (notes st)) ->
  api (net (mkRequest DELETE (lit "/notes/" ++ i) None)) = inr v ->
  notes (fst (deleteNote i st net)) = notes st
  /\ snd (deleteNote i st net)
     = [(mkRequest DELETE (lit "/notes/" ++ i) None, inr v)]
  /\ errorMessage (fst (deleteNote i st net)) = None.
Proof.
  intros Habs H. unfold deleteNote, deleteNote_begin. cbv beta iota zeta.
  rewrite H. unfold deleteNote_settle, fst, snd. simpl.
  destruct (selected_is (selectedId st) i); simpl;
    now rewrite (filter_absent _ _ Habs).
Qed.

Lemma deleteNote_absent_witness :
  notes (fst (deleteNote (lit "7") Sample.editing
                (Sample.no_content (T := unit))))
  = [Sample.note2; Sample.note1].
Proof.
  apply (@deleteNote_absent unit (lit "7") Sample.editing
           Sample.no_content None).
  - simpl. intros [H|[H|[]]]; discriminate H.
  - reflexivity.
Defined.

(** X7: a load that succeeds takes the server's list whole and in the
    server's order, drops the former collection and error message, and
    keeps the selection and the draft, whether or not the selected note is
    in the new list. *)
Theorem loadNotes_success (st : State) (net : Request -> Reply (list Note))
    (l : list Note) :
  api (net (mkRequest GET (lit "/notes") None)) = inr (Some l) ->
  loadNotes st net
  = Some (mkState l false (saving st) (deletingId st) (selectedId st)
            (formTitle st) (formContent st) None,
          [(mkRequest GET (lit "/notes") None, inr (Some l))]).
Proof.
  intros H. unfold loadNotes, loadNotes_begin. cbv beta iota zeta.
  now rewrite H.
Qed.

Lemma loadNotes_success_witness :
  loadNotes Sample.editing (Sample.replies [Sample.note3])
  = Some (mkState [Sample.note3] false false None (Some (lit "1"))
            (lit " New ") (lit "body2") None,
          [(mkRequest GET (lit "/notes") None, inr (Some [Sample.note3]))]).
Proof.
  apply (loadNotes_success Sample.editing (Sample.replies [Sample.note3])).
  reflexivity.
Defined.

(** *** save, update branch *)

Lemma map_replace_ids (u : Note) (l : list Note) :
  map id (map (fun n => if str_eqb (id n) (id u) then u else n) l) = map id l.
Proof.
  induction l as [|x l IH]; simpl; [reflexivity|].
  rewrite IH. destruct (str_eqb (id x) (id u)) eqn:E; [|reflexivity].
  apply str_eqb_eq in E. now rewrite E.
Qed.

(** X8: whatever note a successful update returns, the collection keeps
    its size and its identifiers: the update branch puts the returned note
    in the place of entries, it never adds or drops one. *)
Theorem save_update_keeps_ids (getTime : jsstring -> option Z) (st : State)
    (net : Request -> Reply Note) (sel : jsstring) (updated : Note) :
  selectedId st = Some sel -> sel <> [] ->
  forallb is_space (formTitle st) = false ->
  api (net (mkRequest PUT (lit "/notes/" ++ sel)
              (Some (trim (formTitle st), formContent st))))
  = inr (Some updated) ->
  exists st' trace,
    save getTime st net = Some (st', trace)
    /\ List.length (notes st') = List.length (notes st)
    /\ Permutation (map id (notes st)) (map id (notes st'))
    /\ (forall n, In n (notes st') -> n = updated \/ In n (notes st)).
Proof.
  intros Hsel Hne Hval Hapi.
  rewrite (save_update getTime st net Hsel Hne Hval Hapi).
  eexists _, _. split; [reflexivity|]. cbn [notes].
  split; [|split].
  - now rewrite sort_length, length_map.
  - rewrite <- (map_replace_ids updated (notes st)) at 1.
    apply Permutation_map, sort_perm.
  - intros n Hn. apply sort_In in Hn. apply in_map_iff in Hn as (x & <- & Hx).
    destruct (str_eqb (id x) (id updated)); auto.
Qed.

Lemma save_update_keeps_ids_witness :
  exists st' trace,
    save Iso.getTime Sample.editing (Sample.replies Sample.note1')
    = Some (st', trace)
    /\ List.length (notes st') = List.length (notes Sample.editing)
    /\ Permutation (map id (notes Sample.editing)) (map id (notes st'))
    /\ (forall n, In n (notes st') ->
        n = Sample.note1' \/ In n (notes Sample.editing)).
Proof.
  apply (@save_update_keeps_ids Iso.getTime Sample.editing
           (Sample.replies Sample.note1') (lit "1") Sample.note1' eq_refl).
  - discriminate.
  - reflexivity.
  - reflexivity.
Defined.

Lemma map_replace_unique (u : Note) (l : list Note) :
  NoDup (map id l) -> In (id u) (map id l) ->
  Permutation (map (fun n => if str_eqb (id n) (id u) then u else n) l)
              (u :: filter (fun n => negb (str_eqb (id n) (id u))) l).
Proof.
  induction l as [|x l IH]; simpl; [tauto|].
  intros ND Hin. inversion ND as [|? ? Hx ND']; subst.
  destruct (str_eqb (id x) (id u)) eqn:E; simpl.
  - apply str_eqb_eq in E. rewrite E in Hx.
    now rewrite (map_replace_absent _ _ Hx), (filter_absent _ _ Hx).
  - destruct Hin as [Hin|Hin];
      [apply str_eqb_neq in E; congruence|].
    rewrite (IH ND' Hin). apply perm_swap.
Qed.

(** X9: when the identifiers of the collection are distinct and one of
    them is the returned note's, a successful update swaps that one entry
    for the returned note and keeps every other entry as it is. *)
Theorem save_update_replaces_one (getTime : jsstring -> option Z) (st : State)
    (net : Request -> Reply Note) (sel : jsstring) (updated : Note) :
  selectedId st = Some sel -> sel <> [] ->
  forallb is_space (formTitle st) = false ->
  api (net (mkRequest PUT (lit "/notes/" ++ sel)
              (Some (trim (formTitle st), formContent st))))
  = inr (Some updated) ->
  NoDup (map id (notes st)) ->
  In (id updated) (map id (notes st)) ->
  exists st' trace,
    save getTime st net = Some (st', trace)
    /\ Permutation (notes st')
         (updated :: filter (fun n => negb (str_eqb (id n) (id updated)))
                       (notes st))
    /\ NoDup (map id (notes st')).
Proof.
  intros Hsel Hne Hval Hapi ND Hin.
  rewrite (save_update getTime st net Hsel Hne Hval Hapi).
  eexists _, _. split; [reflexivity|]. cbn [notes]. split.
  - rewrite <- sort_perm. now apply map_replace_unique.
  - apply (Permutation_NoDup (l := map id (notes st))); [|exact ND].
    rewrite <- (map_replace_ids updated (notes st)) at 1.
    apply Permutation_map, sort_perm.
Qed.

Lemma save_update_replaces_one_witness :
  exists st' trace,
    save Iso.getTime Sample.editing (Sample.replies Sample.note1')
    = Some (st', trace)
    /\ Permutation (notes st') [Sample.note1'; Sample.note2]
    /\ NoDup (map id (notes st')).
Proof.
  apply (@save_update_replaces_one Iso.getTime Sample.editing
           (Sample.replies Sample.note1') (lit "1") Sample.note1' eq_refl).
  - discriminate.
  - reflexivity.
  - reflexivity.
  - simpl. repeat constructor; simpl; intuition discriminate.
  - simpl. auto.
Defined.

Section Order.

Variable getTime : jsstring -> option Z.

Lemma not_older_false_at (t : Z) (x u : Note) :
  not_older getTime x u = false ->
  at_time getTime t x = true -> at_time getTime t u = true -> False.
Proof.
  unfold not_older, at_time.
  destruct (getTime (updatedAt x)), (getTime (updatedAt u)); try discriminate.
  rewrite Z.leb_gt, !Z.eqb_eq. lia.
Qed.

(** With distinct identifiers and the returned note strictly the newest,
    the notes of each instant are the same, in the same order, before the
    sort and in the list that has the returned note first. *)
Lemma filter_replace_front (t : Z) (u : Note) (l : list Note) :
  NoDup (map id l) -> In (id u) (map id l) ->
  (forall n, In n l -> id n <> id u -> not_older getTime n u = false) ->
  filter (at_time getTime t)
    (u :: filter (fun n => negb (str_eqb (id n) (id u))) l)
  = filter (at_time getTime t)
      (map (fun n => if str_eqb (id n) (id u) then u else n) l).
Proof.
  induction l as [|x l IH]; [simpl; tauto|].
  intros ND Hin Hnew. inversion ND as [|? ? Hx ND']; subst.
  cbn [map filter].
  destruct (str_eqb (id x) (id u)) eqn:E; cbn [negb].
  - apply str_eqb_eq in E. rewrite E in Hx.
    rewrite (map_replace_absent _ _ Hx), (filter_absent _ _ Hx).
    reflexivity.
  - assert (Ne : id x <> id u) by now apply str_eqb_neq.
    destruct Hin as [Hin|Hin]; [congruence|].
    specialize (IH ND' Hin (fun n Hn => Hnew n (or_intror Hn))).
    cbn [filter] in IH |- *. rewrite <- IH.
    pose proof (Hnew x (or_introl eq_refl) Ne) as Hxu.
    destruct (at_time getTime t u) eqn:Tu, (at_time getTime t x) eqn:Tx;
      try reflexivity.
    destruct (@not_older_false_at t x u Hxu Tx Tu).
Qed.

(** X10: in a sorted collection with distinct identifiers, a successful
    update whose returned note is strictly newer than every other entry
    puts that note first and leaves the other entries in the order they
    had. *)
Theorem save_update_moves_to_front (st : State)
    (net : Request -> Reply Note) (sel : jsstring) (updated : Note) :
  selectedId st = Some sel -> sel <> [] ->
  forallb is_space (formTitle st) = false ->
  api (net (mkRequest PUT (lit "/notes/" ++ sel)
              (Some (trim (formTitle st), formContent st))))
  = inr (Some updated) ->
  NoDup (map id (notes st)) ->
  In (id updated) (map id (notes st)) ->
  forallb (dated getTime) (updated :: notes st) = true ->
  sorted_desc getTime (notes st) = true ->
  (forall n, In n (notes st) -> id n <> id updated ->
             not_older getTime n updated = false) ->
  exists st' trace,
    save getTime st net = Some (st', trace)
    /\ notes st'
       = updated :: filter (fun n => negb (str_eqb (id n) (id updated)))
                      (notes st).
Proof.
  intros Hsel Hne Hval Hapi ND Hin D S Hnew.
  rewrite (save_update getTime st net Hsel Hne Hval Hapi).
  eexists _, _. split; [reflexivity|]. cbn [notes]. symmetry.
  cbn [forallb] in D. apply andb_true_iff in D as [Du Dl].
  apply sort_determined.
  - now apply map_replace_dated.
  - cbn [forallb]. rewrite Du. cbn [andb].
    rewrite forallb_forall in *. intros n Hn.
    apply filter_In in Hn as [Hn _]. now apply Dl.
  - cbn [sorted_desc]. rewrite (sorted_desc_filter _ _ _ S), andb_true_r.
    rewrite forallb_forall in *. intros n Hn.
    apply filter_In in Hn as [Hn Hid].
    apply negb_true_iff, str_eqb_neq in Hid.
    apply not_older_total; auto.
  - intros t. now apply filter_replace_front.
Qed.

End Order.

Lemma save_update_moves_to_front_witness :
  exists st' trace,
    save Iso.getTime Sample.editing (Sample.replies Sample.note1')
    = Some (st', trace)
    /\ notes st' = [Sample.note1'; Sample.note2].
Proof.
  apply (@save_update_moves_to_front Iso.getTime Sample.editing
           (Sample.replies Sample.note1') (lit "1") Sample.note1' eq_refl).
  - discriminate.
  - reflexivity.
  - reflexivity.
  - simpl. repeat constructor; simpl; intuition discriminate.
  - simpl. auto.
  - reflexivity.
  - reflexivity.
  - intros n [<-|[<-|[]]] H; [reflexivity | now contradiction H].
Defined.

(** *** save, create branch *)

(** The create branch, unfolded, on a returned note.  The order written
    here is that of [sort]: the engine's when the notes are dated. *)
Lemma save_create_run (getTime : jsstring -> option Z) (st : State)
    (net : Request -> Reply Note) (created : Note) :
  selected_truthy (selectedId st) = None ->
  forallb is_space (formTitle st) = false ->
  api (net (mkRequest POST (lit "/notes")
              (Some (trim (formTitle st), formContent st))))
  = inr (Some created) ->
  save getTime st net
  = Some (mkState (sort getTime (created :: notes st)) (loading st) false
            (deletingId st) (Some (id created))
            (formTitle st) (formContent st) None,
          [(mkRequest POST (lit "/notes")
              (Some (trim (formTitle st), formContent st)),
            inr (Some created))]).
Proof.
  intros Hsel Hval Hapi. unfold save.
  rewrite (save_begin_valid st Hval), Hsel. cbv beta iota zeta.
  rewrite Hapi. reflexivity.
Qed.

(** Where an insertion lands: after the entries the comparator puts the
    note behind, before the first it does not. *)
Lemma sort_insert_split (getTime : jsstring -> option Z) (x : Note)
    (l : list Note) :
  exists l1 l2,
    l = l1 ++ l2
    /\ sort_insert getTime x l = l1 ++ x :: l2
    /\ forallb (fun y => negb (SortCompare getTime x y <=? 0)%Z) l1 = true
    /\ match l2 with
       | y :: _ => (SortCompare getTime x y <=? 0)%Z = true
       | [] => True
       end.
Proof.
  induction l as [|y l (l1 & l2 & -> & E & H1 & H2)].
  - now exists [], [].
  - cbn [sort_insert].
    destruct (SortCompare getTime x y <=? 0)%Z eqn:C.
    + exists [], (y :: l1 ++ l2). repeat split. exact C.
    + exists (y :: l1), l2. rewrite E. cbn [forallb]. rewrite C, H1.
      repeat split. exact H2.
Qed.

(** X11: in a sorted collection a created note lands by its date: the
    entries strictly newer than it stay before it, the others come after
    it, and all keep their order. *)
Theorem save_create_position (getTime : jsstring -> option Z) (st : State)
    (net : Request -> Reply Note) (created : Note) :
  selectedId st = None ->
  forallb is_space (formTitle st) = false ->
  api (net (mkRequest POST (lit "/notes")
              (Some (trim (formTitle st), formContent st))))
  = inr (Some created) ->
  forallb (dated getTime) (created :: notes st) = true ->
  sorted_desc getTime (notes st) = true ->
  exists st' trace newer rest,
    save getTime st net = Some (st', trace)
    /\ notes st = newer ++ rest
    /\ notes st' = newer ++ created :: rest
    /\ forallb (fun y => negb (not_older getTime created y)) newer = true
    /\ forallb (not_older getTime created) rest = true.
Proof.
  intros Hsel Hval Hapi D S.
  assert (Hs : selected_truthy (selectedId st) = None) by now rewrite Hsel.
  rewrite (save_create_run getTime st net Hs Hval Hapi).
  cbn [forallb] in D. apply andb_true_iff in D as [Dc Dl].
  destruct (sort_insert_split getTime created (notes st))
    as (l1 & l2 & E & Hins & H1 & H2).
  exists (mkState (sort getTime (created :: notes st)) (loading st) false
            (deletingId st) (Some (id created))
            (formTitle st) (formContent st) None).
  eexists _, l1, l2. split; [reflexivity|]. split; [exact E|].
  cbn [notes sort]. rewrite (sort_of_sorted getTime _ Dl S).
  split; [exact Hins|].
  rewrite E in Dl, S. rewrite forallb_app in Dl.
  apply andb_true_iff in Dl as [D1 D2]. split.
  - rewrite forallb_forall in *. intros y Hy.
    rewrite <- (SortCompare_dated getTime _ _ Dc (D1 y Hy)). now apply H1.
  - destruct l2 as [|y l2]; [reflexivity|].
    cbn [forallb] in D2. apply andb_true_iff in D2 as [Dy D2].
    rewrite (SortCompare_dated getTime _ _ Dc Dy) in H2.
    cbn [forallb]. rewrite H2. cbn [andb].
    assert (S2 : sorted_desc getTime (y :: l2) = true).
    { clear - S. induction l1 as [|z l1 IH]; [exact S|].
      cbn [app sorted_desc] in S. apply andb_true_iff in S as [_ S]. auto. }
    cbn [sorted_desc] in S2. apply andb_true_iff in S2 as [Hy _].
    rewrite forallb_forall in *. intros z Hz.
    eapply not_older_trans; [exact H2 | now apply Hy].
Qed.

Lemma save_create_position_witness :
  exists st' trace newer rest,
    save Iso.getTime
      (mkState [Sample.note3; Sample.note1] false false None None
         (lit "Title B") [] None)
      (Sample.replies Sample.note2) = Some (st', trace)
    /\ [Sample.note3; Sample.note1] = newer ++ rest
    /\ notes st' = newer ++ Sample.note2 :: rest
    /\ forallb (fun y => negb (not_older Iso.getTime Sample.note2 y)) newer
       = true
    /\ forallb (not_older Iso.getTime Sample.note2) rest = true.
Proof.
  apply (@save_create_position Iso.getTime
           (mkState [Sample.note3; Sample.note1] false false None None
              (lit "Title B") [] None)
           (Sample.replies Sample.note2) Sample.note2);
    reflexivity.
Defined.

(** X12: after a save that created a note, the next save of the same
    draft updates that note, with a PUT to its identifier, instead of
    creating a second one; unless the identifier is the empty string,
    which reads as no selection and makes the next save create again. *)
Theorem save_after_create (getTime : jsstring -> option Z) (st : State)
    (net : Request -> Reply Note) (created : Note) :
  selectedId st = None ->
  forallb is_space (formTitle st) = false ->
  api (net (mkRequest POST (lit "/notes")
              (Some (trim (formTitle st), formContent st))))
  = inr (Some created) ->
  exists st' trace,
    save getTime st net = Some (st', trace)
    /\ snd (save_begin st')
       = Some (if truthy (id created)
               then (UpdateBranch,
                     mkRequest PUT (lit "/notes/" ++ id created)
                       (Some (trim (formTitle st), formContent st)))
               else (CreateBranch,
                     mkRequest POST (lit "/notes")
                       (Some (trim (formTitle st), formContent st)))).
Proof.
  intros Hsel Hval Hapi.
  assert (Hs : selected_truthy (selectedId st) = None) by now rewrite Hsel.
  rewrite (save_create_run getTime st net Hs Hval Hapi).
  eexists _, _. split; [reflexivity|].
  rewrite save_begin_valid by exact Hval. cbn [snd selectedId selected_truthy].
  now destruct (truthy (id created)).
Qed.

Lemma save_after_create_witness :
  exists st' trace,
    save Iso.getTime Sample.drafting (Sample.replies Sample.note3)
    = Some (st', trace)
    /\ snd (save_begin st')
       = Some (UpdateBranch,
               mkRequest PUT (lit "/notes/" ++ lit "3")
                 (Some (lit "Title C", lit "last"))).
Proof.
  apply (@save_after_create Iso.getTime Sample.drafting
           (Sample.replies Sample.note3) Sample.note3);
    reflexivity.
Defined.

(** *** What save sends *)

Lemma save_begin_blank (st : State) :
  forallb is_space (formTitle st) = true ->
  save_begin st
  = (set_errorMessage (Some (lit "Title is required.")) st, None).
Proof.
  intros H. unfold save_begin.
  change (formTitle (set_errorMessage None st)) with (formTitle st).
  now rewrite truthy_trim, H.
Qed.

(** X13: a save right after [startEdit] of a note sends that note's
    trimmed title and its content with a PUT to the note's identifier.
    Two cases fall outside: a note whose title is blank is refused before
    any call, and a note whose identifier is the empty string is sent as
    a create. *)
Theorem save_after_startEdit (note : Note) (st : State) :
  snd (save_begin (startEdit note st))
  = if forallb is_space (title note) then None
    else Some (if truthy (id note)
               then (UpdateBranch,
                     mkRequest PUT (lit "/notes/" ++ id note)
                       (Some (trim (title note), content note)))
               else (CreateBranch,
                     mkRequest POST (lit "/notes")
                       (Some (trim (title note), content note)))).
Proof.
  destruct (forallb is_space (title note)) eqn:E.
  - now rewrite save_begin_blank.
  - rewrite save_begin_valid by exact E.
    cbn [snd startEdit selectedId set_errorMessage set_formContent
         set_formTitle set_selectedId selected_truthy formTitle formContent].
    now destruct (truthy (id note)).
Qed.

Example edit_then_save :
  snd (save_begin (startEdit Sample.note2 Sample.drafting))
  = Some (UpdateBranch,
          mkRequest PUT (lit "/notes/2") (Some (lit "Title B", lit "more"))).
Proof. reflexivity. Qed.

Lemma trimStart_split (s : jsstring) :
  exists pre,
    s = pre ++ trimStart s
    /\ forallb is_space pre = true
    /\ is_space (hd 0%N (trimStart s)) = false.
Proof.
  induction s as [|c s (pre & E & B & H)].
  - now exists [].
  - cbn [trimStart]. destruct (is_space c) eqn:C.
    + exists (c :: pre). cbn [forallb app]. rewrite C, B.
      repeat split; [now f_equal | exact H].
    + exists []. repeat split. exact C.
Qed.

Lemma trimEnd_split (s : jsstring) :
  exists post,
    s = trimEnd s ++ post
    /\ forallb is_space post = true
    /\ is_space (last (trimEnd s) 0%N) = false.
Proof.
  unfold trimEnd.
  destruct (trimStart_split (rev s)) as (pre & E & B & H).
  exists (rev pre). split; [|split].
  - rewrite <- rev_app_distr, <- E. symmetry. apply rev_involutive.
  - now rewrite forallb_rev.
  - destruct (trimStart (rev s)) as [|c t]; [reflexivity|].
    cbn [rev]. now rewrite last_last.
Qed.

(** What [trim] returns: the string without a stretch of white space at
    each end, itself with none there. *)
Lemma trim_split (s : jsstring) :
  exists pre post,
    s = pre ++ trim s ++ post
    /\ forallb is_space pre = true
    /\ forallb is_space post = true
    /\ is_space (hd 0%N (trim s)) = false
    /\ is_space (last (trim s) 0%N) = false.
Proof.
  unfold trim.
  destruct (trimStart_split s) as (pre & E & B & H).
  destruct (trimEnd_split (trimStart s)) as (post & E' & B' & H').
  exists pre, post. repeat split; try assumption.
  - now rewrite <- E'.
  - destruct (trimEnd (trimStart s)) as [|c t]; [reflexivity|].
    rewrite E' in H. exact H.
Qed.

(** X14: every request a save makes carries a title that is not empty and
    has no white space at either end, namely the draft's title less the
    white space around it, and the draft's content untouched. *)
Theorem save_sends_trimmed_title (st st1 : State) (b : Branch)
    (req : Request) :
  save_begin st = (st1, Some (b, req)) ->
  exists t pre post,
    body req = Some (t, formContent st)
    /\ formTitle st = pre ++ t ++ post
    /\ forallb is_space pre = true
    /\ forallb is_space post = true
    /\ t <> []
    /\ is_space (hd 0%N t) = false
    /\ is_space (last t 0%N) = false.
Proof.
  intros B.
  destruct (forallb is_space (formTitle st)) eqn:V.
  { rewrite (save_begin_blank st V) in B. discriminate. }
  rewrite (save_begin_valid st V) in B.
  destruct (trim_split (formTitle st)) as (pre & post & E & Bp & Bq & Hh & Hl).
  exists (trim (formTitle st)), pre, post.
  assert (Hne : trim (formTitle st) <> []).
  { intros H. apply trim_blank in H. congruence. }
  destruct (selected_truthy (selectedId st)); injection B as _ _ <-;
    repeat split; assumption.
Qed.

Lemma save_sends_trimmed_title_witness :
  exists t pre post,
    Some (lit "New", lit "body2") = Some (t, formContent Sample.editing)
    /\ formTitle Sample.editing = pre ++ t ++ post
    /\ forallb is_space pre = true
    /\ forallb is_space post = true
    /\ t <> []
    /\ is_space (hd 0%N t) = false
    /\ is_space (last t 0%N) = false.
Proof.
  apply (@save_sends_trimmed_title Sample.editing _ UpdateBranch
           (mkRequest PUT (lit "/notes/1") (Some (lit "New", lit "body2")))
           eq_refl).
Defined.

(** *** The error message and the selected entry *)

Lemma api_not_ok {T} (res : Response T) :
  ok res = false ->
  api (Resolved res) = inl (ErrorInstance (failure_message res)).
Proof. intros H. unfold api. now rewrite H. Qed.

(** X15: a reply with a status outside 200..299 always leaves a message
    that is not the empty string in [errorMessage], for a load, a save and
    a delete alike: the body text when there is some, and the line with
    the status otherwise. *)
Theorem http_failure_sets_message (getTime : jsstring -> option Z)
    (st : State) :
  (forall (net : Request -> Reply (list Note)) res,
     net (mkRequest GET (lit "/notes") None) = Resolved res ->
     ok res = false ->
     exists st' trace m,
       loadNotes st net = Some (st', trace)
       /\ errorMessage st' = Some m /\ m <> []
       /\ m = match text res with
              | Some (c :: t) => c :: t
              | _ => lit "Request failed: " ++ of_N (status res)
              end)
  /\ (forall (net : Request -> Reply Note) st1 b req res,
     save_begin st = (st1, Some (b, req)) ->
     net req = Resolved res ->
     ok res = false ->
     exists st' trace m,
       save getTime st net = Some (st', trace)
       /\ errorMessage st' = Some m /\ m <> []
       /\ m = match text res with
              | Some (c :: t) => c :: t
              | _ => lit "Request failed: " ++ of_N (status res)
              end)
  /\ (forall T i (net : Request -> Reply T) res,
     net (mkRequest DELETE (lit "/notes/" ++ i) None) = Resolved res ->
     ok res = false ->
     exists m,
       errorMessage (fst (deleteNote i st net)) = Some m /\ m <> []
       /\ m = match text res with
              | Some (c :: t) => c :: t
              | _ => lit "Request failed: " ++ of_N (status res)
              end).
Proof.
  assert (M : forall T (res : Response T),
            failure_message res
            = match text res with
              | Some (c :: t) => c :: t
              | _ => lit "Request failed: " ++ of_N (status res)
              end).
  { intros T res. unfold failure_message, or_else.
    now destruct (text res) as [[|c t]|]. }
  split; [|split].
  - intros net res Hnet Hok.
    unfold loadNotes, loadNotes_begin. cbv beta iota zeta.
    rewrite Hnet, (api_not_ok res Hok). eexists _, _, _.
    split; [reflexivity|]. split; [reflexivity|].
    split; [apply failure_message_nonempty | apply M].
  - intros net st1 b req res B Hnet Hok.
    unfold save. rewrite B, Hnet, (api_not_ok res Hok). eexists _, _, _.
    split; [reflexivity|]. split; [reflexivity|].
    split; [apply failure_message_nonempty | apply M].
  - intros T i net res Hnet Hok.
    unfold deleteNote, deleteNote_begin. cbv beta iota zeta.
    rewrite Hnet, (api_not_ok res Hok). eexists.
    split; [reflexivity|].
    split; [apply failure_message_nonempty | apply M].
Qed.

Lemma http_failure_sets_message_witness :
  (exists st' trace m,
     loadNotes Sample.editing (Sample.refuses 500 []) = Some (st', trace)
     /\ errorMessage st' = Some m /\ m <> []
     /\ m = lit "Request failed: 500")
  /\ (exists st' trace m,
     save Iso.getTime Sample.editing (Sample.refuses 500 [])
     = Some (st', trace)
     /\ errorMessage st' = Some m /\ m <> []
     /\ m = lit "Request failed: 500")
  /\ (exists m,
     errorMessage (fst (deleteNote (lit "1") Sample.editing
                          (Sample.refuses (T := unit) 500 []))) = Some m
     /\ m <> [] /\ m = lit "Request failed: 500").
Proof.
  destruct (http_failure_sets_message Iso.getTime Sample.editing)
    as (Hload & Hsave & Hdelete).
  split; [|split].
  - apply (Hload (Sample.refuses 500 []) _ eq_refl). reflexivity.
  - apply (Hsave (Sample.refuses 500 []) _ UpdateBranch _ _ eq_refl eq_refl).
    reflexivity.
  - apply (Hdelete unit (lit "1") (Sample.refuses 500 []) _ eq_refl).
    reflexivity.
Defined.

(** The message can still be the empty string: an [Error] without one,
    from [fetch] itself, is taken as it is. *)
Example empty_message :
  option_map (fun r => errorMessage (fst r))
    (loadNotes initial (fun _ => Rejected (ErrorInstance [])))
  = Some (Some []).
Proof. reflexivity. Qed.

Lemma find_only {A} (f : A -> bool) (u : A) (l : list A) :
  (forall n, In n l -> f n = true -> n = u) ->
  In u l -> f u = true -> find f l = Some u.
Proof.
  induction l as [|x l IH]; simpl; [tauto|].
  intros Hall Hin Hu. destruct (f x) eqn:E.
  - f_equal. apply Hall; auto.
  - destruct Hin as [->|Hin]; [congruence|]. apply IH; auto.
Qed.

(** X16: after a successful update that returned a note with the selected
    identifier, every entry of the collection that carries the selected
    identifier is the returned note, the first of them included, and there
    is one exactly when an entry carried that identifier before. *)
Theorem save_update_selected_entry (getTime : jsstring -> option Z)
    (st : State) (net : Request -> Reply Note) (updated : Note) :
  selectedId st = Some (id updated) -> id updated <> [] ->
  forallb is_space (formTitle st) = false ->
  api (net (mkRequest PUT (lit "/notes/" ++ id updated)
              (Some (trim (formTitle st), formContent st))))
  = inr (Some updated) ->
  exists st' trace,
    save getTime st net = Some (st', trace)
    /\ selectedId st' = Some (id updated)
    /\ (forall n, In n (notes st') -> id n = id updated -> n = updated)
    /\ (In updated (notes st') <-> In (id updated) (map id (notes st)))
    /\ find (fun n => str_eqb (id n) (id updated)) (notes st')
       = if existsb (fun n => str_eqb (id n) (id updated)) (notes st)
         then Some updated else None.
Proof.
  intros Hsel Hne Hval Hapi.
  rewrite (save_update getTime st net Hsel Hne Hval Hapi).
  eexists _, _. split; [reflexivity|]. cbn [notes selectedId].
  split; [reflexivity|].
  assert (Hall : forall n,
            In n (sort getTime
                    (map (fun n => if str_eqb (id n) (id updated)
                                   then updated else n) (notes st))) ->
            id n = id updated -> n = updated).
  { intros n Hn Hid. apply sort_In, map_replace_In in Hn.
    destruct Hn as [[-> _]|[_ Hn]]; [reflexivity | contradiction]. }
  assert (Hin : In updated
                  (sort getTime
                     (map (fun n => if str_eqb (id n) (id updated)
                                    then updated else n) (notes st)))
                <-> In (id updated) (map id (notes st))).
  { rewrite sort_In, map_replace_In. split.
    - intros [[_ H]|[_ H]]; [exact H | now contradiction H].
    - intros H. left. now split. }
  split; [exact Hall|]. split; [exact Hin|].
  destruct (existsb _ (notes st)) eqn:Ex.
  - apply find_only.
    + intros n Hn Hid. apply Hall; [exact Hn | now apply str_eqb_eq].
    + apply Hin. apply existsb_exists in Ex as (x & Hx & Hid).
      apply str_eqb_eq in Hid. rewrite <- Hid. now apply in_map.
    + apply str_eqb_refl.
  - destruct (find _ _) as [n|] eqn:F; [|reflexivity].
    apply find_some in F as [Hn Hid]. apply str_eqb_eq in Hid.
    pose proof (Hall n Hn Hid) as ->. apply Hin in Hn.
    apply in_map_iff in Hn as (x & Hx & Hxin).
    assert (existsb (fun n => str_eqb (id n) (id updated)) (notes st) = true).
    { apply existsb_exists. exists x. split; [exact Hxin|].
      now apply str_eqb_eq. }
    congruence.
Qed.

Lemma save_update_selected_entry_witness :
  exists st' trace,
    save Iso.getTime Sample.editing (Sample.replies Sample.note1')
    = Some (st', trace)
    /\ find (fun n => str_eqb (id n) (lit "1")) (notes st')
       = Some Sample.note1'.
Proof.
  destruct (@save_update_selected_entry Iso.getTime Sample.editing
              (Sample.replies Sample.note1') Sample.note1' eq_refl)
    as (st' & trace & Hrun & _ & _ & _ & Hfind);
    try reflexivity; try discriminate.
  exists st', trace. split; [exact Hrun | exact Hfind].
Defined.

(** X17: after a successful create whose note has an identifier new to
    the collection, the created note is the one entry that carries the
    selected identifier, and identifiers that were distinct stay
    distinct. *)
Theorem save_create_selects_created (getTime : jsstring -> option Z)
    (st : State) (net : Request -> Reply Note) (created : Note) :
  selectedId st = None ->
  forallb is_space (formTitle st) = false ->
  api (net (mkRequest POST (lit "/notes")
              (Some (trim (formTitle st), formContent st))))
  = inr (Some created) ->
  ~ In (id created) (map id (notes st)) ->
  exists st' trace,
    save getTime st net = Some (st', trace)
    /\ selectedId st' = Some (id created)
    /\ In created (notes st')
    /\ (forall n, In n (notes st') -> id n = id created -> n = created)
    /\ find (fun n => str_eqb (id n) (id created)) (notes st')
       = Some created
    /\ (NoDup (map id (notes st)) -> NoDup (map id (notes st'))).
Proof.
  intros Hsel Hval Hapi Hfresh.
  assert (Hs : selected_truthy (selectedId st) = None) by now rewrite Hsel.
  rewrite (save_create_run getTime st net Hs Hval Hapi).
  eexists _, _. split; [reflexivity|]. cbn [notes selectedId].
  split; [reflexivity|].
  assert (Hall : forall n, In n (sort getTime (created :: notes st)) ->
                           id n = id created -> n = created).
  { intros n Hn Hid. apply sort_In in Hn as [Hn|Hn]; [now symmetry|].
    destruct Hfresh. rewrite <- Hid. now apply in_map. }
  assert (Hin : In created (sort getTime (created :: notes st)))
    by (apply sort_In; now left).
  split; [exact Hin|]. split; [exact Hall|]. split.
  - apply find_only; [|exact Hin | apply str_eqb_refl].
    intros n Hn Hid. apply Hall; [exact Hn | now apply str_eqb_eq].
  - intros ND.
    apply (Permutation_NoDup (l := map id (created :: notes st))).
    + apply Permutation_map, sort_perm.
    + now constructor.
Qed.

Lemma save_create_selects_created_witness :
  exists st' trace,
    save Iso.getTime Sample.drafting (Sample.replies Sample.note3)
    = Some (st', trace)
    /\ selectedId st' = Some (lit "3")
    /\ In Sample.note3 (notes st')
    /\ (forall n, In n (notes st') -> id n = lit "3" -> n = Sample.note3)
    /\ find (fun n => str_eqb (id n) (lit "3")) (notes st')
       = Some Sample.note3
    /\ (NoDup (map id (notes Sample.drafting)) -> NoDup (map id (notes st'))).
Proof.
  apply (@save_create_selects_created Iso.getTime Sample.drafting
           (Sample.replies Sample.note3) Sample.note3);
    try reflexivity.
  simpl. intros [H|[H|[]]]; discriminate H.
Defined.

(** *** A delete between the two halves of a save *)

(** X18: a save sends its update, the selected note is deleted while the
    call is under way, and then the update returns: the note is not put
    back.  The collection holds what the delete left, re-sorted (newest
    first when the dates can be read); nothing is selected, the draft is
    empty and no error is set. *)
Theorem update_settles_after_delete {T} (getTime : jsstring -> option Z)
    (st : State) (net : Request -> Reply T) (v : option T)
    (sel : jsstring) (updated : Note) :
  selectedId st = Some sel -> sel <> [] ->
  forallb is_space (formTitle st) = false ->
  api (net (mkRequest DELETE (lit "/notes/" ++ sel) None)) = inr v ->
  id updated = sel ->
  snd (save_begin st)
  = Some (UpdateBranch,
          mkRequest PUT (lit "/notes/" ++ sel)
            (Some (trim (formTitle st), formContent st)))
  /\ exists l,
      save_settle getTime UpdateBranch (inr updated)
        (fst (deleteNote sel (fst (save_begin st)) net))
      = mkState l (loading st) false None None [] [] None
      /\ Permutation
           (filter (fun n => negb (str_eqb (id n) sel)) (notes st)) l
      /\ ~ In updated l
      /\ ~ In sel (map id l)
      /\ (forallb (dated getTime) (notes st) = true ->
          l = sort getTime
                (filter (fun n => negb (str_eqb (id n) sel)) (notes st))
          /\ sorted_desc getTime l = true).
Proof.
  intros Hsel Hne Hval Hapi Hid.
  rewrite (save_begin_valid st Hval), Hsel.
  destruct sel as [|c sel]; [congruence|].
  cbn [selected_truthy truthy snd fst]. split; [reflexivity|].
  assert (Habs : ~ In (id updated)
            (map id (filter (fun n => negb (str_eqb (id n) (c :: sel)))
                       (notes st)))).
  { rewrite in_map_iff. intros (n & Hn & Hin).
    apply filter_In in Hin as [_ Hin].
    rewrite Hid in Hn. rewrite Hn, str_eqb_refl in Hin. discriminate. }
  exists (sort getTime
            (filter (fun n => negb (str_eqb (id n) (c :: sel))) (notes st))).
  split; [|split; [|split; [|split]]].
  - unfold deleteNote, deleteNote_begin. cbv beta iota zeta.
    rewrite Hapi. unfold deleteNote_settle, fst.
    cbn [selectedId set_notes set_deletingId set_errorMessage set_saving
         selected_is notes].
    rewrite Hsel. cbn [selected_is]. rewrite str_eqb_refl.
    unfold save_settle, startCreate.
    cbn [selectedId set_notes set_deletingId set_errorMessage set_saving
         set_selectedId set_formTitle set_formContent notes loading saving
         deletingId formTitle formContent errorMessage].
    now rewrite (map_replace_absent _ _ Habs).
  - apply sort_perm.
  - intros Hin. apply sort_In in Hin. apply Habs. now apply in_map.
  - intros Hin. apply Habs. rewrite Hid. revert Hin.
    apply Permutation_in, Permutation_map, Permutation_sym, sort_perm.
  - intros D. split; [reflexivity|]. apply sort_sorted.
    rewrite forallb_forall in *. intros n Hn.
    apply filter_In in Hn as [Hn _]. now apply D.
Qed.

Lemma update_settles_after_delete_witness :
  exists l,
    save_settle Iso.getTime UpdateBranch (inr Sample.note1')
      (fst (deleteNote (lit "1") (fst (save_begin Sample.loaded'))
              (Sample.no_content (T := unit))))
    = mkState l false false None None [] [] None
    /\ l = [Sample.note3; Sample.note2].
Proof.
  destruct (@update_settles_after_delete unit Iso.getTime Sample.loaded'
              Sample.no_content None (lit "1") Sample.note1' eq_refl)
    as (_ & l & Hrun & _ & _ & _ & Hdated);
    try reflexivity; try discriminate.
  exists l. split; [exact Hrun|]. now apply Hdated.
Defined.
